(** * R-GCN embedding service: a shallow embedding of the Python sources

    The development follows the layout of [backend/python-rgcn]:
    - [models/rgcn_model.py]: [RGCNModel] (constructor and forward pass) and
      [RGCNTrainer] (one link-prediction epoch);
    - [services/embedding_service.py]: [EmbeddingService];
    - [services/neo4j_connector.py]: the node loop of [get_graph_data];
    - [app.py]: [startup] and the request handlers.

    Tensors hold rationals ([Q]) in place of 32-bit floats.  The numeric
    kernels that third-party packages provide (scikit-learn's
    [cosine_similarity], torch's [binary_cross_entropy_with_logits],
    [randint], autograd and Adam) are section variables: every theorem holds
    whatever they compute.  Python exceptions are values of [exn]; a function
    that can raise returns a [result]. *)

From Stdlib Require Import QArith.
From stdpp Require Import base list strings pretty sorting.

Local Close Scope Q_scope.
Local Open Scope string_scope.
Local Open Scope list_scope.

(** ** Exceptions *)

Inductive exn : Type :=
| IndexError
| KeyError
| HTTPException (status_code : Z) (detail : string).

Inductive result (A : Type) : Type :=
| Ok (a : A)
| Raise (e : exn).
Arguments Ok {A} a.
Arguments Raise {A} e.

#[global] Instance result_ret : MRet result := λ A a, Ok a.
#[global] Instance result_bind : MBind result := λ A B f r,
  match r with
  | Ok a => f a
  | Raise e => Raise e
  end.

(** [mapM] for [result]: the first exception wins. *)
Fixpoint result_mapM {A B : Type} (f : A → result B) (l : list A) : result (list B) :=
  match l with
  | [] => Ok []
  | x :: l' => y ← f x; ys ← result_mapM f l'; Ok (y :: ys)
  end.

(** ** Python dictionaries

    A [dict] keeps its keys in insertion order; assigning to a key that is
    present replaces the value and keeps the key's position.  The keys of
    [d], in order, are [d.*1]. *)

Module PyDict.
Section defs.
Context {K V : Type} `{EqDecision K}.

Fixpoint get (d : list (K * V)) (k : K) : option V :=
  match d with
  | [] => None
  | (k', v) :: d' => if decide (k = k') then Some v else get d' k
  end.

Definition contains (d : list (K * V)) (k : K) : bool :=
  match get d k with Some _ => true | None => false end.

Fixpoint set (d : list (K * V)) (k : K) (v : V) : list (K * V) :=
  match d with
  | [] => [(k, v)]
  | (k', v') :: d' =>
      if decide (k = k') then (k, v) :: d' else (k', v') :: set d' k v
  end.

(** [dict(zip(ks, vs))] *)
Definition of_zip (ks : list K) (vs : list V) : list (K * V) :=
  foldl (λ d kv, set d kv.1 kv.2) [] (zip ks vs).
End defs.
End PyDict.

Abbreviation pydict K V := (list (K * V)) (only parsing).

(** [enumerate(l)], counting from [i]. *)
Fixpoint enumerate_from {A : Type} (i : nat) (l : list A) : list (nat * A) :=
  match l with
  | [] => []
  | x :: l' => (i, x) :: enumerate_from (S i) l'
  end.
Definition enumerate {A : Type} (l : list A) : list (nat * A) := enumerate_from 0 l.

(** [l[:k]] for a Python integer [k]: a negative [k] counts from the end. *)
Definition slice_to {A : Type} (l : list A) (k : Z) : list A :=
  if (0 <=? k)%Z then take (Z.to_nat k) l
  else take (length l - Z.to_nat (- k)) l.

(** ** Tensors *)

Abbreviation vec := (list Q).
Abbreviation matrix := (list (list Q)).

Definition dot (a b : vec) : Q :=
  foldr Qplus 0%Q (zip_with Qmult a b).

Definition relu (x : matrix) : matrix :=
  map (map (λ q : Q, if Qle_bool 0 q then q else 0%Q)) x.

(** [table[i]] for an index list: indexing past the end raises. *)
Definition row (x : matrix) (i : nat) : result vec :=
  match x !! i with
  | Some v => Ok v
  | None => Raise IndexError
  end.

Definition gather (x : matrix) (idx : list nat) : result matrix :=
  result_mapM (row x) idx.

Definition vadd (a b : vec) : vec := zip_with Qplus a b.
Definition vscale (c : Q) (a : vec) : vec := map (Qmult c) a.

(** The [r x c] tensor whose entry [(i, j)] is [f i j]. *)
Definition tabulate (r c : nat) (f : nat → nat → Q) : matrix :=
  map (λ i, map (f i) (seq 0 c)) (seq 0 r).

Definition entry (M : matrix) (i j : nat) : Q :=
  default 0%Q (M !! i ≫= λ v, v !! j).

(** [h @ M] for a row vector [h], with [out] output coordinates. *)
Definition transform (h : vec) (M : matrix) (out : nat) : vec :=
  map (λ j, foldr Qplus 0%Q (imap (λ i hi, (hi * entry M i j)%Q) h)) (seq 0 out).

(** ** [models/rgcn_model.py] *)

(** A tensor [edge_index] of shape [[2, num_edges]] is its two rows; the
    tensor [edge_type] runs parallel to them. *)
Abbreviation edge_index_t := (list nat * list nat)%type.
Abbreviation edge_type_t := (list nat).

Definition edge_triples (edge_index : edge_index_t) (edge_type : edge_type_t)
    : list (nat * nat * nat) :=
  zip (zip edge_index.1 edge_index.2) edge_type.

(** Modelled from the spec: the class [RGCNConv] comes from the package
    [torch_geometric]; the layer below is the per-layer formula of the
    specification, [h_v = self_transform(h_v) + sum over relations r and
    edges (u, v, r) of (1 / |N_r(v)|) * relation_transform_r(h_u)], with one
    transform per relation index and a self-loop transform. *)
Record RGCNConv : Type := {
  in_channels : nat;
  out_channels : nat;
  conv_num_relations : nat;
  root : matrix;
  weight : list matrix;
}.

Definition in_degree (es : list (nat * nat * nat)) (r v : nat) : nat :=
  length (filter (λ e, e.1.2 = v ∧ e.2 = r) es).

Definition message (c : RGCNConv) (x : matrix) (es : list (nat * nat * nat))
    (e : nat * nat * nat) : vec :=
  let '(u, v, r) := e in
  vscale (1 / inject_Z (Z.of_nat (in_degree es r v)))%Q
    (transform (default [] (x !! u)) (default [] (weight c !! r)) (out_channels c)).

Definition conv_forward (c : RGCNConv) (x : matrix)
    (edge_index : edge_index_t) (edge_type : edge_type_t) : matrix :=
  let es := edge_triples edge_index edge_type in
  imap (λ v hv,
    foldl vadd (transform hv (root c) (out_channels c))
      (map (message c x es) (filter (λ e, e.1.2 = v) es))) x.

Record RGCNModel : Type := {
  num_nodes : nat;
  num_relations : nat;
  embedding_dim : nat;
  hidden_dim : nat;
  num_layers : Z;
  node_embedding : matrix;
  convs : list RGCNConv;
}.

(** The values a random initialisation draws, coordinate by coordinate. *)
Record initializer : Type := {
  init_embedding : nat → nat → Q;
  init_root : nat → nat → nat → Q;
  init_weight : nat → nat → nat → nat → Q;
}.

Definition RGCNConv_init (ini : initializer) (l : nat) (i o R : nat) : RGCNConv :=
  {| in_channels := i; out_channels := o; conv_num_relations := R;
     root := tabulate i o (init_root ini l);
     weight := map (λ r, tabulate i o (init_weight ini l r)) (seq 0 R) |}.

(** The [(in, out)] pairs of [self.convs], in the order [__init__] appends. *)
Definition conv_dims (embedding_dim hidden_dim : nat) (num_layers : Z)
    : list (nat * nat) :=
  if (num_layers =? 1)%Z then [(embedding_dim, embedding_dim)]
  else (embedding_dim, hidden_dim)
         :: (replicate (Z.to_nat (num_layers - 2)) (hidden_dim, hidden_dim)
             ++ [(hidden_dim, embedding_dim)])%list.

Definition RGCNModel_init (ini : initializer) (num_nodes num_relations : nat)
    (embedding_dim hidden_dim : nat) (num_layers : Z) : RGCNModel :=
  {| num_nodes := num_nodes; num_relations := num_relations;
     embedding_dim := embedding_dim; hidden_dim := hidden_dim;
     num_layers := num_layers;
     node_embedding := tabulate num_nodes embedding_dim (init_embedding ini);
     convs := imap (λ l d, RGCNConv_init ini l d.1 d.2 num_relations)
                (conv_dims embedding_dim hidden_dim num_layers) |}.

(** The loop of [forward]: [i] is the loop index, [n] is [len(self.convs)]. *)
Fixpoint forward_layers (cs : list RGCNConv) (n i : nat) (x : matrix)
    (edge_index : edge_index_t) (edge_type : edge_type_t) : matrix :=
  match cs with
  | [] => x
  | conv :: cs' =>
      let x1 := conv_forward conv x edge_index edge_type in
      let x2 := if decide (i < n - 1) then relu x1 else x1 in
      forward_layers cs' n (S i) x2 edge_index edge_type
  end.

Definition forward (m : RGCNModel) (edge_index : edge_index_t)
    (edge_type : edge_type_t) : matrix :=
  forward_layers (convs m) (length (convs m)) 0 (node_embedding m)
    edge_index edge_type.

(** [RGCNModel.get_embeddings] *)
Definition model_get_embeddings (m : RGCNModel) (node_indices : option (list nat))
    : result matrix :=
  match node_indices with
  | None => Ok (node_embedding m)
  | Some idx => gather (node_embedding m) idx
  end.

(** [list.sort(key=key, reverse=True)]: the sort is stable, so entries with
    equal keys keep the order they had; here as a stable insertion sort. *)
Definition Qltb (a b : Q) : bool := negb (Qle_bool b a).

Fixpoint insert_desc {A : Type} (key : A → Q) (x : A) (l : list A) : list A :=
  match l with
  | [] => [x]
  | y :: l' =>
      if Qltb (key x) (key y) then y :: insert_desc key x l' else x :: y :: l'
  end.

Definition sort_desc {A : Type} (key : A → Q) (l : list A) : list A :=
  foldr (insert_desc key) [] l.

(** ** [services/neo4j_connector.py] *)

(** One row of the node query; a property that is absent is [None]. *)
Record node_record : Type := {
  rec_neo4j_id : Z;
  rec_entity_id : option string;
  rec_label : option string;
}.

(** [value or fallback] on an optional string: [None] and the empty string
    are falsy. *)
Definition str_or (value : option string) (fallback : string) : string :=
  match value with
  | Some s => if decide (s = "") then fallback else s
  | None => fallback
  end.

(** The node loop of [get_graph_data]: [(node_map, entity_ids, labels)]. *)
Fixpoint node_loop (items : list (nat * node_record))
    (acc : pydict Z nat * list string * list string)
    : pydict Z nat * list string * list string :=
  match items with
  | [] => acc
  | (idx, record) :: items' =>
      let '(node_map, entity_ids, labels) := acc in
      node_loop items'
        (PyDict.set node_map (rec_neo4j_id record) idx,
         (entity_ids ++ [str_or (rec_entity_id record) ("node_" +:+ pretty idx)])%list,
         (labels ++ [str_or (rec_label record) "Entity"])%list)
  end.

Definition get_graph_data_nodes (nodes_result : list node_record)
    : pydict Z nat * list string * list string :=
  node_loop (enumerate nodes_result) ([], [], []).

(** What [startup] reads of the dictionary [get_graph_data] returns. *)
Record graph_data : Type := {
  entity_ids : list string;
  edges : edge_index_t;
  edge_types : edge_type_t;
  rel_type_map : pydict string nat;
}.

(** One row of the edge query. *)
Record edge_record : Type := {
  rec_source : Z;
  rec_target : Z;
  rec_rel_type : option string;
}.

(** [d[k]]: a key that is missing raises. *)
Definition subscript {K V : Type} `{EqDecision K} (d : list (K * V)) (k : K)
    : result V :=
  match PyDict.get d k with
  | Some v => Ok v
  | None => Raise KeyError
  end.

(** The edge loop of [get_graph_data]: [(edges, rel_types, rel_type_map)]. *)
Fixpoint edge_loop (node_map : pydict Z nat) (records : list edge_record)
    (acc : list (nat * nat) * list nat * pydict string nat)
    : result (list (nat * nat) * list nat * pydict string nat) :=
  match records with
  | [] => Ok acc
  | record :: records' =>
      let '(edge_list, rel_types, rel_map) := acc in
      let rel_type := str_or (rec_rel_type record) "RELATED_TO" in
      if negb (PyDict.contains node_map (rec_source record))
         || negb (PyDict.contains node_map (rec_target record))
      then edge_loop node_map records' acc
      else
        let rel_map' :=
          if negb (PyDict.contains rel_map rel_type)
          then PyDict.set rel_map rel_type (length rel_map)
          else rel_map in
        s ← subscript node_map (rec_source record);
        t ← subscript node_map (rec_target record);
        r ← subscript rel_map' rel_type;
        edge_loop node_map records'
          (edge_list ++ [(s, t)], rel_types ++ [r], rel_map')
  end.

(** [get_graph_data], from the rows of its two queries: the node map, the
    labels, and the fields [startup] reads. *)
Definition get_graph_data (nodes_result : list node_record)
    (edges_result : list edge_record)
    : result (pydict Z nat * list string * graph_data) :=
  let '(node_map, ids, labels) := get_graph_data_nodes nodes_result in
  if decide (length ids = 0) then
    Ok ([], [], {| entity_ids := []; edges := ([], []); edge_types := [];
                   rel_type_map := [] |})
  else
    acc ← edge_loop node_map edges_result ([], [], []);
    Ok (node_map, labels,
        {| entity_ids := ids; edges := (acc.1.1.*1, acc.1.1.*2);
           edge_types := acc.1.2; rel_type_map := acc.2 |}).

(** ** [services/embedding_service.py] *)

Record EmbeddingService : Type := {
  svc_model : RGCNModel;
  svc_entity_to_node : pydict string nat;
  svc_node_to_entity : pydict nat string;
}.

(** An entry of the list [find_similar_entities] returns. *)
Record similar_entry : Type := {
  entity_id : string;
  score : Q;
  label : string;
}.

(** The loop of [get_embeddings] over the requested identifiers:
    [(node_indices, valid_entity_ids)]. *)
Fixpoint resolve_ids (e2n : pydict string nat) (ids : list string)
    : list nat * list string :=
  match ids with
  | [] => ([], [])
  | e :: ids' =>
      let '(node_indices, valid_entity_ids) := resolve_ids e2n ids' in
      match PyDict.get e2n e with
      | Some i => (i :: node_indices, e :: valid_entity_ids)
      | None => (node_indices, valid_entity_ids)
      end
  end.

(** The loop of [get_embeddings] over [node_to_entity.items()]. *)
Fixpoint all_embeddings_loop (embeddings : matrix) (items : list (nat * string))
    (res : pydict string vec) : result (pydict string vec) :=
  match items with
  | [] => Ok res
  | (node_idx, e) :: items' =>
      v ← row embeddings node_idx;
      all_embeddings_loop embeddings items' (PyDict.set res e v)
  end.

Definition get_embeddings (svc : EmbeddingService) (ids : option (list string))
    : result (pydict string vec) :=
  match ids with
  | None =>
      all_embeddings_loop (node_embedding (svc_model svc))
        (svc_node_to_entity svc) []
  | Some ids =>
      let '(node_indices, valid_entity_ids) :=
        resolve_ids (svc_entity_to_node svc) ids in
      match node_indices with
      | [] => Ok []
      | _ =>
          embeddings ← gather (node_embedding (svc_model svc)) node_indices;
          Ok (PyDict.of_zip valid_entity_ids embeddings)
      end
  end.

Section Backend.

(** [sklearn.metrics.pairwise.cosine_similarity] on two row vectors. *)
Variable cosine_similarity : vec → vec → Q.

(** The state of torch's random generator and [torch.randint(low, high, (n,))]. *)
Variable generator : Type.
Variable randint : nat → nat → nat → generator → list nat * generator.

(** [F.binary_cross_entropy_with_logits(input, target)]. *)
Variable binary_cross_entropy_with_logits : list Q → list Q → Q.

(** The state of the Adam optimizer; [backward_step] is [loss.backward()]
    followed by [optimizer.step()] for the loss of [train_epoch]. *)
Variable optimizer_state : Type.
Variable backward_step :
  RGCNModel → optimizer_state → edge_index_t → edge_type_t → edge_index_t →
  RGCNModel * optimizer_state.

(** The loop of [find_similar_entities] over [all_embeddings.items()]. *)
Fixpoint similarity_loop (query_id : string) (query_emb : vec)
    (items : list (string * vec)) : list similar_entry :=
  match items with
  | [] => []
  | (other_entity_id, other_emb) :: items' =>
      if decide (other_entity_id = query_id)
      then similarity_loop query_id query_emb items'
      else {| entity_id := other_entity_id;
              score := cosine_similarity query_emb other_emb;
              label := "Entity" |}
           :: similarity_loop query_id query_emb items'
  end.

Definition find_similar_entities (svc : EmbeddingService) (query_id : string)
    (top_k : Z) : result (list similar_entry) :=
  if negb (PyDict.contains (svc_entity_to_node svc) query_id) then Ok []
  else
    query_embedding ← get_embeddings svc (Some [query_id]);
    match query_embedding with
    | [] => Ok []
    | _ =>
        match PyDict.get query_embedding query_id with
        | None => Raise KeyError
        | Some query_emb =>
            all_embeddings ← get_embeddings svc None;
            let similarities := similarity_loop query_id query_emb all_embeddings in
            Ok (slice_to (sort_desc score similarities) top_k)
        end
    end.

Definition compute_similarity_matrix (svc : EmbeddingService) (ids : list string)
    : result matrix :=
  embeddings ← get_embeddings svc (Some ids);
  match embeddings with
  | [] => Ok []
  | _ =>
      let emb_matrix := omap (PyDict.get embeddings) ids in
      if decide (length emb_matrix * length (default [] (head emb_matrix)) = 0)
      then Ok []
      else Ok (map (λ a, map (cosine_similarity a) emb_matrix) emb_matrix)
  end.

(** *** [RGCNTrainer] *)

(** The trainer's own fields.  Its [model] attribute is the object the
    global [model] names, so the model is kept once, in the application
    state, and [train_epoch] takes and returns it. *)
Record RGCNTrainer : Type := {
  edge_index : edge_index_t;
  edge_type : edge_type_t;
  num_negative_samples : nat;
  optimizer : optimizer_state;
}.

Definition score_edges (embeddings : matrix) (ei : edge_index_t) : result (list Q) :=
  source_emb ← gather embeddings ei.1;
  target_emb ← gather embeddings ei.2;
  Ok (zip_with dot source_emb target_emb).

Definition sample_negative_edges (m : RGCNModel) (tr : RGCNTrainer) (g : generator)
    : edge_index_t * generator :=
  let n := num_nodes m in
  let num_edges := length (edge_index tr).1 in
  let '(neg_source, g1) := randint 0 n (num_edges * num_negative_samples tr) g in
  let '(neg_target, g2) := randint 0 n (num_edges * num_negative_samples tr) g1 in
  ((neg_source, neg_target), g2).

Definition ones_like (l : list Q) : list Q := map (λ _, 1%Q) l.
Definition zeros_like (l : list Q) : list Q := map (λ _, 0%Q) l.

Definition train_epoch (tr : RGCNTrainer) (m : RGCNModel) (g : generator)
    : result (Q * RGCNModel * RGCNTrainer * generator) :=
  let embeddings := forward m (edge_index tr) (edge_type tr) in
  let pos_edges := edge_index tr in
  pos_scores ← score_edges embeddings pos_edges;
  let '(neg_edges, g') := sample_negative_edges m tr g in
  neg_scores ← score_edges embeddings neg_edges;
  let pos_loss := binary_cross_entropy_with_logits pos_scores (ones_like pos_scores) in
  let neg_loss := binary_cross_entropy_with_logits neg_scores (zeros_like neg_scores) in
  let loss := (pos_loss + neg_loss)%Q in
  let '(m', o') :=
    backward_step m (optimizer tr) (edge_index tr) (edge_type tr) neg_edges in
  Ok (loss, m',
      {| edge_index := edge_index tr; edge_type := edge_type tr;
         num_negative_samples := num_negative_samples tr; optimizer := o' |},
      g').

(** ** [app.py] *)

(** The parameter tensors of a model, as [state_dict()] has them: the
    embedding table, and each layer's self-loop and relation transforms. *)
Record state_dict : Type := {
  sd_node_embedding : matrix;
  sd_convs : list (matrix * list matrix);
}.

Definition shape (M : matrix) : list nat := map length M.

Definition conv_shape (rw : matrix * list matrix) : list nat * list (list nat) :=
  (shape rw.1, map shape rw.2).

Definition model_state_dict (m : RGCNModel) : state_dict :=
  {| sd_node_embedding := node_embedding m;
     sd_convs := map (λ c, (root c, weight c)) (convs m) |}.

(** [model.load_state_dict(sd)]: [None] when a tensor's shape differs. *)
Definition load_state_dict (m : RGCNModel) (sd : state_dict) : option RGCNModel :=
  if decide (shape (sd_node_embedding sd) = shape (node_embedding m)
             ∧ map conv_shape (sd_convs sd)
               = map conv_shape (sd_convs (model_state_dict m)))
  then Some
    {| num_nodes := num_nodes m; num_relations := num_relations m;
       embedding_dim := embedding_dim m; hidden_dim := hidden_dim m;
       num_layers := num_layers m;
       node_embedding := sd_node_embedding sd;
       convs := zip_with (λ c rw,
                  {| in_channels := in_channels c; out_channels := out_channels c;
                     conv_num_relations := conv_num_relations c;
                     root := rw.1; weight := rw.2 |}) (convs m) (sd_convs sd) |}
  else None.

Record stats_t : Type := {
  total_queries : nat;
  avg_similarity : Q;
  embeddings_count : nat;
}.

(** The module's global variables. *)
Record app_state : Type := {
  model : option RGCNModel;
  trainer : option RGCNTrainer;
  node_to_entity : pydict nat string;
  entity_to_node : pydict string nat;
  graph_data_cache : option graph_data;
  stats : stats_t;
}.

Definition initial_state : app_state :=
  {| model := None; trainer := None; node_to_entity := []; entity_to_node := [];
     graph_data_cache := None;
     stats := {| total_queries := 0; avg_similarity := 0%Q; embeddings_count := 0 |} |}.

(** The environment variables [startup] reads. *)
Record config : Type := {
  RGCN_EMBEDDING_DIM : nat;
  RGCN_HIDDEN_DIM : nat;
  RGCN_NUM_LAYERS : Z;
}.

(** The loop of [startup] over [enumerate(graph_data_cache["entity_ids"])]. *)
Fixpoint build_mappings (items : list (nat * string))
    (n2e : pydict nat string) (e2n : pydict string nat)
    : pydict nat string * pydict string nat :=
  match items with
  | [] => (n2e, e2n)
  | (idx, e) :: items' =>
      build_mappings items' (PyDict.set n2e idx e) (PyDict.set e2n e idx)
  end.

(** [startup].  [connected] is the outcome of [test_connection()], [gd] what
    [get_graph_data()] returns, [ini] the values the random initialisation
    draws, [o] the fresh optimizer state, and [snapshot] the parameters
    [torch.load] read, when the file exists, retraining is not forced and
    the read succeeds. *)
Definition startup (connected : bool) (gd : graph_data) (cfg : config)
    (ini : initializer) (o : optimizer_state) (snapshot : option state_dict)
    (st : app_state) : app_state :=
  if negb connected then st
  else
    let n := length (entity_ids gd) in
    let num_relations := length (rel_type_map gd) in
    if decide (n = 0) then
      {| model := model st; trainer := trainer st;
         node_to_entity := node_to_entity st; entity_to_node := entity_to_node st;
         graph_data_cache := Some gd; stats := stats st |}
    else
      let '(n2e, e2n) :=
        build_mappings (enumerate (entity_ids gd))
          (node_to_entity st) (entity_to_node st) in
      let m := RGCNModel_init ini n num_relations (RGCN_EMBEDDING_DIM cfg)
                 (RGCN_HIDDEN_DIM cfg) (RGCN_NUM_LAYERS cfg) in
      let tr := {| edge_index := edges gd; edge_type := edge_types gd;
                   num_negative_samples := 1; optimizer := o |} in
      let m' := match snapshot with
                | Some sd => default m (load_state_dict m sd)
                | None => m
                end in
      {| model := Some m'; trainer := Some tr;
         node_to_entity := n2e; entity_to_node := e2n;
         graph_data_cache := Some gd; stats := stats st |}.

Definition count_query (st : app_state) (embeddings_generated : nat) : app_state :=
  {| model := model st; trainer := trainer st;
     node_to_entity := node_to_entity st; entity_to_node := entity_to_node st;
     graph_data_cache := graph_data_cache st;
     stats := {| total_queries := S (total_queries (stats st));
                 avg_similarity := avg_similarity (stats st);
                 embeddings_count :=
                   embeddings_count (stats st) + embeddings_generated |} |}.

Definition record_similarity (st : app_state) (avg_sim : Q) : app_state :=
  {| model := model st; trainer := trainer st;
     node_to_entity := node_to_entity st; entity_to_node := entity_to_node st;
     graph_data_cache := graph_data_cache st;
     stats := {| total_queries := total_queries (stats st);
                 avg_similarity := ((avg_similarity (stats st) + avg_sim) / 2)%Q;
                 embeddings_count := embeddings_count (stats st) |} |}.

Definition service_of (m : RGCNModel) (st : app_state) : EmbeddingService :=
  {| svc_model := m; svc_entity_to_node := entity_to_node st;
     svc_node_to_entity := node_to_entity st |}.

(** [POST /embeddings]: the response, or the exception raised, and the
    globals afterwards. *)
Definition post_embeddings (st : app_state) (request_entity_ids : list string)
    : result (pydict string vec * list string) * app_state :=
  match model st with
  | None => (Raise (HTTPException 503 "Model not loaded"), st)
  | Some m =>
      match get_embeddings (service_of m st) (Some request_entity_ids) with
      | Raise e => (Raise e, count_query st 0)
      | Ok embeddings =>
          (Ok (embeddings, embeddings.*1),
           count_query st (length embeddings))
      end
  end.

(** [POST /similar] *)
Definition post_similar (st : app_state) (request_entity_id : string)
    (request_top_k : Z) : result (string * list similar_entry) * app_state :=
  match model st with
  | None => (Raise (HTTPException 503 "Model not loaded"), st)
  | Some m =>
      let st1 := count_query st 0 in
      match find_similar_entities (service_of m st) request_entity_id request_top_k with
      | Raise e => (Raise e, st1)
      | Ok similar =>
          let st2 :=
            match similar with
            | [] => st1
            | _ => record_similarity st1
                     (foldr Qplus 0%Q (map score similar)
                      / inject_Z (Z.of_nat (length similar)))%Q
            end in
          (Ok (request_entity_id, similar), st2)
      end
  end.

(** The loop of [POST /train]: the losses of the epochs run, and the
    exception that ended the loop early, if any. *)
Fixpoint train_loop (epochs : nat) (tr : RGCNTrainer) (m : RGCNModel)
    (g : generator) (losses : list Q)
    : option exn * list Q * RGCNModel * RGCNTrainer * generator :=
  match epochs with
  | 0 => (None, losses, m, tr, g)
  | S epochs' =>
      match train_epoch tr m g with
      | Raise e => (Some e, losses, m, tr, g)
      | Ok (loss, m', tr', g') => train_loop epochs' tr' m' g' (losses ++ [loss])%list
      end
  end.

(** [POST /train]: the final loss and the parameters saved. *)
Definition post_train (st : app_state) (g : generator) (request_epochs : Z)
    : result (option Q * state_dict) * app_state * generator :=
  match model st, trainer st with
  | Some m, Some tr =>
      let '(err, losses, m', tr', g') :=
        train_loop (Z.to_nat request_epochs) tr m g [] in
      let st' :=
        {| model := Some m'; trainer := Some tr';
           node_to_entity := node_to_entity st; entity_to_node := entity_to_node st;
           graph_data_cache := graph_data_cache st; stats := stats st |} in
      match err with
      | Some e => (Raise e, st', g')
      | None => (Ok (last losses, model_state_dict m'), st', g')
      end
  | _, _ => (Raise (HTTPException 503 "Model or trainer not initialized"), st, g)
  end.

(** What [GET /health] answers, the timestamp apart. *)
Inductive health_response : Type :=
| HealthError (error : string) (neo4j_connected : option bool)
| HealthReport (status : string) (model_loaded neo4j_connected : bool)
    (nodes n_edges relation_types : nat)
    (model_embedding_dim model_num_relations model_num_nodes : option nat).

(** [GET /health].  [connector] is [None] while the global
    [neo4j_connector] is unset, and otherwise holds what
    [test_connection()] returns. *)
Definition health (connector : option bool) (st : app_state) : health_response :=
  match connector with
  | None => HealthError "Neo4j connector not initialized" None
  | Some neo4j_ok =>
      match graph_data_cache st with
      | None => HealthError "Graph data not loaded" (Some neo4j_ok)
      | Some gd =>
          HealthReport
            (match model st with Some _ => "ok" | None => "partial" end)
            (match model st with Some _ => true | None => false end)
            neo4j_ok
            (length (entity_ids gd)) (length (edge_types gd))
            (length (rel_type_map gd))
            (embedding_dim <$> model st) (num_relations <$> model st)
            (num_nodes <$> model st)
      end
  end.

End Backend.

Arguments edge_index {optimizer_state} _.
Arguments edge_type {optimizer_state} _.
Arguments num_negative_samples {optimizer_state} _.
Arguments optimizer {optimizer_state} _.
Arguments sample_negative_edges {generator} randint {optimizer_state} m tr g.
Arguments train_epoch {generator} randint binary_cross_entropy_with_logits
  {optimizer_state} backward_step tr m g.
Arguments model {optimizer_state} _.
Arguments trainer {optimizer_state} _.
Arguments node_to_entity {optimizer_state} _.
Arguments entity_to_node {optimizer_state} _.
Arguments graph_data_cache {optimizer_state} _.
Arguments stats {optimizer_state} _.
Arguments initial_state {optimizer_state}.
Arguments startup {optimizer_state} connected gd cfg ini o snapshot st.
Arguments count_query {optimizer_state} st embeddings_generated.
Arguments record_similarity {optimizer_state} st avg_sim.
Arguments service_of {optimizer_state} m st.
Arguments post_embeddings {optimizer_state} st request_entity_ids.
Arguments post_similar cosine_similarity {optimizer_state} st request_entity_id
  request_top_k.
Arguments train_loop {generator} randint binary_cross_entropy_with_logits
  {optimizer_state} backward_step epochs tr m g losses.
Arguments post_train {generator} randint binary_cross_entropy_with_logits
  {optimizer_state} backward_step st g request_epochs.
Arguments health {optimizer_state} connector st.

(** ** Well-formed states *)

(** Every index the two mappings hold is a row of the embedding table. *)
Definition service_wf (svc : EmbeddingService) : Prop :=
  Forall (λ kv, kv.2 < length (node_embedding (svc_model svc)))
    (svc_entity_to_node svc)
  ∧ Forall (λ kv, kv.1 < length (node_embedding (svc_model svc)))
      (svc_node_to_entity svc).

#[global] Instance service_wf_dec (svc : EmbeddingService) : Decision (service_wf svc).
Proof. unfold service_wf. apply _. Defined.

(** The service [startup] leaves behind for a graph with the identifiers
    [ids], around a model [m]. *)
Definition indexed_service (m : RGCNModel) (ids : list string) : EmbeddingService :=
  {| svc_model := m;
     svc_entity_to_node := (build_mappings (enumerate ids) [] []).2;
     svc_node_to_entity := (build_mappings (enumerate ids) [] []).1 |}.

(** The tensor has [r] rows of [c] coordinates each. *)
Definition has_shape (x : matrix) (r c : nat) : Prop :=
  length x = r ∧ Forall (λ v, length v = c) x.

(** The order of a list sorted by descending key whose ties follow [R]. *)
Definition desc_then {A : Type} (key : A → Q) (R : relation A) : relation A :=
  λ x y, (key y < key x)%Q ∨ ((key x == key y)%Q ∧ R x y).

(** What [torch.randint(low, high, (n,))] promises for [low < high]: [n]
    draws, each in [[low, high)]. *)
Definition randint_contract {generator : Type}
    (randint : nat → nat → nat → generator → list nat * generator) : Prop :=
  ∀ low high n g, low < high →
    length (randint low high n g).1 = n
    ∧ Forall (λ i, low <= i < high) (randint low high n g).1.

(** The dot product of the rows [u] and [v] of [embeddings], pair by pair. *)
Definition pair_scores (embeddings : matrix) (us vs : list nat) : list Q :=
  zip_with (λ u v, dot (default [] (embeddings !! u)) (default [] (embeddings !! v)))
    us vs.

(** [n] epochs run one after the other, each on the model, the optimizer
    and the generator that the one before left; [losses] are their losses
    in order. *)
Inductive epochs_run {generator optimizer_state : Type}
    (randint : nat → nat → nat → generator → list nat * generator)
    (binary_cross_entropy_with_logits : list Q → list Q → Q)
    (backward_step : RGCNModel → optimizer_state → edge_index_t → edge_type_t →
                     edge_index_t → RGCNModel * optimizer_state)
    : nat → RGCNTrainer optimizer_state → RGCNModel → generator → list Q →
      RGCNModel → RGCNTrainer optimizer_state → generator → Prop :=
| epochs_run_O tr m g :
    epochs_run randint binary_cross_entropy_with_logits backward_step
      0 tr m g [] m tr g
| epochs_run_S n tr m g loss m1 tr1 g1 losses m' tr' g' :
    train_epoch randint binary_cross_entropy_with_logits backward_step tr m g
    = Ok (loss, m1, tr1, g1) →
    epochs_run randint binary_cross_entropy_with_logits backward_step
      n tr1 m1 g1 losses m' tr' g' →
    epochs_run randint binary_cross_entropy_with_logits backward_step
      (S n) tr m g (loss :: losses) m' tr' g'.





(** What the edge loop keeps true of [(edges, rel_types, rel_type_map)]
    for a graph of [n] nodes: the ends of every edge are node indices, the
    types run parallel to the edges and are indices of the map, and the
    map numbers its distinct names 0, 1, 2, ... in the order they came. *)
Definition edge_acc_wf (n : nat)
    (acc : list (nat * nat) * list nat * pydict string nat) : Prop :=
  Forall (λ st, st.1 < n ∧ st.2 < n) acc.1.1
  ∧ length acc.1.2 = length acc.1.1
  ∧ Forall (λ r, r < length acc.2) acc.1.2
  ∧ acc.2.*2 = seq 0 (length acc.2)
  ∧ NoDup acc.2.*1.

(** The tensors of a graph fit together: one type per edge, every end of
    an edge a node index, every type a relation index. *)
Definition graph_wf (gd : graph_data) : Prop :=
  length (edges gd).1 = length (edge_types gd)
  ∧ length (edges gd).2 = length (edge_types gd)
  ∧ Forall (λ i, i < length (entity_ids gd)) (edges gd).1
  ∧ Forall (λ i, i < length (entity_ids gd)) (edges gd).2
  ∧ Forall (λ r, r < length (rel_type_map gd)) (edge_types gd).

(** ** Kernels and inputs of the examples *)

(** A rational square root: exact on the squares of rationals. *)
Definition Qsqrt_floor (q : Q) : Q :=
  (Z.sqrt (Qnum q * Z.pos (Qden q)) # Qden q)%Q.

(** Row normalisation as scikit-learn does it: a zero norm is replaced by
    one before the division. *)
Definition normalize_row (a : vec) : vec :=
  let n := Qsqrt_floor (dot a a) in
  map (λ x, x / (if Qeq_bool n 0 then 1 else n))%Q a.

Definition cosine_rational (a b : vec) : Q :=
  Qred (dot (normalize_row a) (normalize_row b)).

(** A sampler that counts: draw [i] of a call is [low + (g + i) mod (high - low)]. *)
Definition counter_randint (low high n : nat) (g : nat) : list nat * nat :=
  (map (λ i, low + (g + i) `mod` (high - low)) (seq 0 n), g + n).

(** The part of the cross-entropy on logits that needs no logarithm:
    the mean of [max(x, 0) - x * t]. *)
Definition linear_bce (input target : list Q) : Q :=
  (foldr Qplus 0 (zip_with (λ x t, (if Qle_bool 0 x then x else 0) - x * t) input target)
   / inject_Z (Z.of_nat (length input)))%Q.

(** An optimizer step of learning rate zero. *)
Definition null_step (m : RGCNModel) (o : unit) (ei : edge_index_t)
    (et : edge_type_t) (neg : edge_index_t) : RGCNModel * unit := (m, o).

(** Rows of norm five, so that [cosine_rational] is exact on them; the
    last two rows are equal. *)
Definition example_table : matrix :=
  [[3; 4]; [4; 3]; [0; 5]; [0; 5]]%Q.

Definition example_ini : initializer :=
  {| init_embedding := entry example_table;
     init_root := λ l i j, 2%Q;
     init_weight := λ l r i j, 1%Q |}.

Definition example_cfg : config :=
  {| RGCN_EMBEDDING_DIM := 2; RGCN_HIDDEN_DIM := 2; RGCN_NUM_LAYERS := 1 |}.

(** The scenario of the specification: entities A, B, C and the edges
    A -> B and B -> C of the one relation LIKES. *)
Definition example_graph : graph_data :=
  {| entity_ids := ["A"; "B"; "C"];
     edges := ([0; 1], [1; 2]); edge_types := [0; 0];
     rel_type_map := [("LIKES", 0)] |}.

Definition example_state : app_state unit :=
  startup true example_graph example_cfg example_ini tt None initial_state.

Definition example_model : RGCNModel :=
  RGCNModel_init example_ini 3 1 2 2 1.

Definition example_service : EmbeddingService :=
  indexed_service example_model ["A"; "B"; "C"].

(** A graph in which two nodes carry the identifier B. *)
Definition duplicate_graph : graph_data :=
  {| entity_ids := ["A"; "B"; "C"; "B"];
     edges := ([0; 1], [1; 2]); edge_types := [0; 0];
     rel_type_map := [("LIKES", 0)] |}.

Definition duplicate_state : app_state unit :=
  startup true duplicate_graph example_cfg example_ini tt None initial_state.

Definition duplicate_service : EmbeddingService :=
  indexed_service (RGCNModel_init example_ini 4 1 2 2 1) ["A"; "B"; "C"; "B"].

(** Rows of the node query in which two nodes have the identifier B. *)
Definition duplicate_nodes : list node_record :=
  [ {| rec_neo4j_id := 10; rec_entity_id := Some "A"; rec_label := Some "Person" |};
    {| rec_neo4j_id := 11; rec_entity_id := Some "B"; rec_label := Some "Person" |};
    {| rec_neo4j_id := 12; rec_entity_id := Some "C"; rec_label := None |};
    {| rec_neo4j_id := 13; rec_entity_id := Some "B"; rec_label := Some "Place" |} ].

Definition example_trainer : RGCNTrainer unit :=
  {| edge_index := ([0; 1], [1; 2]); edge_type := [0; 0];
     num_negative_samples := 2; optimizer := tt |}.

(** A generator that is the list of the words it will give, zeros after
    the end, and the sampler that reads it. *)
Definition tape_words (g : list nat) (i : nat) : nat := default 0 (g !! i).

Definition tape_randint (low high k : nat) (g : list nat) : list nat * list nat :=
  (map (λ i, low + tape_words g i `mod` (high - low)) (seq 0 k), drop k g).


Definition two_node_model : RGCNModel := RGCNModel_init example_ini 2 1 2 2 1.

Definition one_edge_trainer : RGCNTrainer unit :=
  {| edge_index := ([0], [1]); edge_type := [0];
     num_negative_samples := 1; optimizer := tt |}.

Definition empty_graph : graph_data :=
  {| entity_ids := []; edges := ([], []); edge_types := []; rel_type_map := [] |}.

(** * Properties *)

(** ** Dictionaries *)

Section pydict_facts.
Context {K V : Type} `{EqDecision K}.
Implicit Types (d : list (K * V)) (k : K) (v : V).

Lemma get_set d k k' v :
  PyDict.get (PyDict.set d k v) k' = if decide (k' = k) then Some v else PyDict.get d k'.
Proof.
  induction d as [|[k0 v0] d IH]; simpl.
  - repeat case_decide; congruence.
  - destruct (decide (k = k0)) as [->|Hne]; simpl.
    + repeat case_decide; congruence.
    + rewrite IH. repeat case_decide; congruence.
Qed.

Lemma get_None_keys d k : PyDict.get d k = None ↔ k ∉ d.*1.
Proof.
  induction d as [|[k0 v0] d IH]; simpl.
  - split; [intros _; apply not_elem_of_nil | done].
  - rewrite not_elem_of_cons. case_decide; subst.
    + split; [done | intros [? _]; done].
    + rewrite IH. tauto.
Qed.

Lemma get_Some_elem_of d k v : PyDict.get d k = Some v → (k, v) ∈ d.
Proof.
  induction d as [|[k0 v0] d IH]; simpl; [done|].
  case_decide; subst.
  - intros [= ->]. apply elem_of_cons; auto.
  - intros. apply elem_of_cons; auto.
Qed.

Lemma contains_true d k : PyDict.contains d k = true ↔ k ∈ d.*1.
Proof.
  unfold PyDict.contains. destruct (PyDict.get d k) eqn:E.
  - split; [intros _|done]. destruct (decide (k ∈ d.*1)); [done|].
    apply get_None_keys in n. congruence.
  - apply get_None_keys in E. split; [done | intros; done].
Qed.

Lemma set_fresh d k v : k ∉ d.*1 → PyDict.set d k v = d ++ [(k, v)].
Proof.
  induction d as [|[k0 v0] d IH]; simpl; [done|].
  rewrite not_elem_of_cons. intros [Hne Hni].
  case_decide; [done|]. f_equal. by apply IH.
Qed.

Lemma keys_set_present d k v : k ∈ d.*1 → (PyDict.set d k v).*1 = d.*1.
Proof.
  induction d as [|[k0 v0] d IH]; simpl.
  - intros H0. by apply elem_of_nil in H0.
  - case_decide; subst; simpl; [done|].
    rewrite elem_of_cons. intros [?|Hin]; [done|]. f_equal. by apply IH.
Qed.

Lemma elem_of_keys_set d k v k' :
  k' ∈ (PyDict.set d k v).*1 ↔ k' = k ∨ k' ∈ d.*1.
Proof.
  destruct (decide (k ∈ d.*1)) as [Hin|Hni].
  - rewrite keys_set_present by done. split; [auto | intros [->|]; auto].
  - rewrite set_fresh by done. rewrite fmap_app, elem_of_app.
    simpl. rewrite list_elem_of_singleton. tauto.
Qed.

Lemma NoDup_keys_set d k v :
  NoDup (d.*1) → NoDup ((PyDict.set d k v).*1).
Proof.
  intros Hnd. destruct (decide (k ∈ d.*1)) as [Hin|Hni].
  - by rewrite keys_set_present.
  - rewrite set_fresh by done. rewrite fmap_app. simpl.
    apply NoDup_app. split; [done|]. split; [|apply NoDup_singleton].
    intros x Hx Hx'. apply list_elem_of_singleton in Hx'. by subst.
Qed.

(** An entry of [set d k v] is the new one or an entry of [d]. *)
Lemma elem_of_set d k v kv : kv ∈ PyDict.set d k v → kv = (k, v) ∨ kv ∈ d.
Proof.
  induction d as [|[k0 v0] d IH]; simpl.
  - rewrite list_elem_of_singleton. auto.
  - case_decide; subst; rewrite !elem_of_cons; [tauto|].
    intros [?|?]; [auto|]. destruct IH; auto.
Qed.

End pydict_facts.

(** ** The stable descending sort *)

Lemma Qltb_lt (a b : Q) : Qltb a b = true ↔ (a < b)%Q.
Proof.
  unfold Qltb. rewrite negb_true_iff, <- not_true_iff_false, Qle_bool_iff.
  split; [apply Qnot_le_lt | apply Qlt_not_le].
Qed.

Lemma Qltb_ge (a b : Q) : Qltb a b = false ↔ (b <= a)%Q.
Proof. unfold Qltb. by rewrite negb_false_iff, Qle_bool_iff. Qed.

Section sorting.
Context {A : Type} (key : A → Q).
Implicit Types (x y : A) (l : list A) (R : relation A).

Lemma insert_desc_perm x l : insert_desc key x l ≡ₚ x :: l.
Proof.
  induction l as [|y l IH]; simpl; [done|].
  destruct (Qltb (key x) (key y)); [|done].
  rewrite IH. apply Permutation_swap.
Qed.

Lemma sort_desc_perm l : sort_desc key l ≡ₚ l.
Proof.
  induction l as [|x l IH]; simpl; [done|].
  by rewrite insert_desc_perm, IH.
Qed.

Lemma sort_desc_length l : length (sort_desc key l) = length l.
Proof. by rewrite sort_desc_perm. Qed.

Lemma insert_desc_sorted R x l :
  StronglySorted (desc_then key R) l → Forall (R x) l →
  StronglySorted (desc_then key R) (insert_desc key x l).
Proof.
  induction l as [|y l IH]; simpl; intros Hs Hx.
  - repeat constructor.
  - apply StronglySorted_inv in Hs as [Hs Hy].
    apply Forall_cons in Hx as [Hxy Hx].
    destruct (Qltb (key x) (key y)) eqn:E.
    + apply Qltb_lt in E. constructor; [by apply IH|].
      rewrite insert_desc_perm. constructor; [by left | done].
    + apply Qltb_ge in E. constructor; [by constructor|].
      assert (Hd : desc_then key R x y).
      { destruct (Qlt_le_dec (key y) (key x)) as [Hlt|Hle]; [by left|].
        right. split; [by apply Qle_antisym | done]. }
      constructor; [done|].
      rewrite Forall_forall in Hy, Hx. apply Forall_forall. intros z Hz.
      destruct (Hy z Hz) as [Hlt|[Heq HR]].
      * left. eapply Qlt_le_trans; eauto.
      * destruct Hd as [Hlt|[Heq' _]].
        -- left. by rewrite <- Heq.
        -- right. split; [by rewrite Heq' | by apply Hx].
Qed.

(** Stability: where the input follows [R], ties of the output follow [R]. *)
Lemma sort_desc_stable R l :
  StronglySorted R l → StronglySorted (desc_then key R) (sort_desc key l).
Proof.
  induction l as [|x l IH]; simpl; intros Hs; [constructor|].
  apply StronglySorted_inv in Hs as [Hs Hx].
  apply insert_desc_sorted; [by apply IH|].
  by rewrite sort_desc_perm.
Qed.

Lemma StronglySorted_take R l n : StronglySorted R l → StronglySorted R (take n l).
Proof.
  intros Hs. revert n. induction Hs as [|x l Hs IH Hx]; intros [|n]; simpl;
    try constructor; [apply IH|].
  apply Forall_take. done.
Qed.

Lemma StronglySorted_impl R R' l :
  (∀ x y, R x y → R' x y) → StronglySorted R l → StronglySorted R' l.
Proof.
  intros HR. induction 1 as [|x l Hs IH Hx]; constructor; [done|].
  eapply Forall_impl; eauto.
Qed.

Lemma StronglySorted_lookup R l i j x y :
  StronglySorted R l → i < j → l !! i = Some x → l !! j = Some y → R x y.
Proof.
  intros Hs. revert i j. induction Hs as [|z l Hs IH Hz]; intros i j Hij Hi Hj.
  - done.
  - destruct j as [|j]; [lia|]. destruct i as [|i]; simpl in *.
    + injection Hi as ->. rewrite Forall_forall in Hz. apply Hz.
      by eapply list_elem_of_lookup_2.
    + apply (IH i j); [lia|done..].
Qed.

Lemma sort_desc_sorted l :
  StronglySorted (λ x y, (key y <= key x)%Q) (sort_desc key l).
Proof.
  apply (StronglySorted_impl (desc_then key (λ _ _, True))).
  - intros x y [Hlt|[Heq _]]; [by apply Qlt_le_weak|]. rewrite Heq. apply Qle_refl.
  - apply sort_desc_stable. induction l; constructor; [done|].
    by apply Forall_forall.
Qed.

End sorting.

(** ** Reading the embedding table *)

Lemma gather_ok (x : matrix) (idx : list nat) :
  Forall (λ i, i < length x) idx →
  ∃ rows, gather x idx = Ok rows ∧ Forall2 (λ i v, x !! i = Some v) idx rows.
Proof.
  unfold gather. induction 1 as [|i idx Hi _ IH]; simpl.
  - eexists. split; [done | constructor].
  - destruct IH as (rows & -> & Hrows).
    apply lookup_lt_is_Some_2 in Hi as [v Hv].
    unfold row. rewrite Hv. simpl. eexists. split; [done|]. by constructor.
Qed.

Lemma resolve_ids_valid (e2n : pydict string nat) (ids : list string) :
  (resolve_ids e2n ids).2 = filter (λ e, is_Some (PyDict.get e2n e)) ids.
Proof.
  induction ids as [|e ids IH]; simpl; [done|].
  destruct (resolve_ids e2n ids) as [ni valid]. simpl in IH.
  rewrite filter_cons. destruct (PyDict.get e2n e) eqn:E; simpl.
  - by rewrite IH.
  - done.
Qed.

Lemma resolve_ids_indices (e2n : pydict string nat) (ids : list string) :
  Forall2 (λ i e, PyDict.get e2n e = Some i)
    (resolve_ids e2n ids).1 (resolve_ids e2n ids).2.
Proof.
  induction ids as [|e ids IH]; simpl; [constructor|].
  destruct (resolve_ids e2n ids) as [ni valid]. simpl in IH.
  destruct (PyDict.get e2n e) eqn:E; simpl; [by constructor | done].
Qed.

Section of_zip_facts.
Context {K V : Type} `{EqDecision K}.
Implicit Types (d : list (K * V)) (kvs : list (K * V)).

Lemma foldl_set_keys d kvs k :
  k ∈ (foldl (λ d kv, PyDict.set d kv.1 kv.2) d kvs).*1 ↔ k ∈ d.*1 ∨ k ∈ kvs.*1.
Proof.
  revert d. induction kvs as [|[k0 v0] kvs IH]; intros d; simpl.
  - rewrite elem_of_nil. tauto.
  - rewrite IH, elem_of_keys_set, elem_of_cons. tauto.
Qed.

Lemma foldl_set_NoDup d kvs :
  NoDup d.*1 → NoDup (foldl (λ d kv, PyDict.set d kv.1 kv.2) d kvs).*1.
Proof.
  revert d. induction kvs as [|[k0 v0] kvs IH]; intros d Hd; simpl; [done|].
  apply IH. by apply NoDup_keys_set.
Qed.

Lemma foldl_set_Forall (P : K * V → Prop) d kvs :
  Forall P d → Forall P kvs →
  Forall P (foldl (λ d kv, PyDict.set d kv.1 kv.2) d kvs).
Proof.
  revert d. induction kvs as [|[k0 v0] kvs IH]; intros d Hd Hkvs; simpl; [done|].
  apply Forall_cons in Hkvs as [H0 Hkvs]. apply IH; [|done].
  apply Forall_forall. intros kv Hkv. apply elem_of_set in Hkv as [->|Hkv]; [done|].
  rewrite Forall_forall in Hd. by apply Hd.
Qed.

Lemma of_zip_keys (ks : list K) (vs : list V) k :
  length ks = length vs → k ∈ (PyDict.of_zip ks vs).*1 ↔ k ∈ ks.
Proof.
  intros Hlen. unfold PyDict.of_zip. rewrite foldl_set_keys, fst_zip by lia.
  simpl. rewrite elem_of_nil. tauto.
Qed.

Lemma of_zip_NoDup (ks : list K) (vs : list V) : NoDup (PyDict.of_zip ks vs).*1.
Proof. apply foldl_set_NoDup. constructor. Qed.

Lemma of_zip_Forall (P : K → V → Prop) (ks : list K) (vs : list V) :
  Forall2 P ks vs → Forall (λ kv, P kv.1 kv.2) (PyDict.of_zip ks vs).
Proof.
  intros HP. apply foldl_set_Forall; [constructor|].
  induction HP; simpl; constructor; done.
Qed.

(** In a dictionary, a key has the value [get] reads. *)
Lemma get_elem_of d k v : NoDup d.*1 → (k, v) ∈ d → PyDict.get d k = Some v.
Proof.
  induction d as [|[k0 v0] d IH]; simpl; intros Hnd Hin.
  - by apply elem_of_nil in Hin.
  - apply NoDup_cons in Hnd as [Hk0 Hnd]. apply elem_of_cons in Hin as [[= -> ->]|Hin].
    + by rewrite decide_True.
    + rewrite decide_False; [by apply IH|]. intros ->. apply Hk0.
      apply list_elem_of_fmap. by exists (k0, v).
Qed.

End of_zip_facts.

Lemma Forall2_resolved (e2n : pydict string nat) (x : matrix)
    (idx : list nat) (valid : list string) (rows : matrix) :
  Forall2 (λ i e, PyDict.get e2n e = Some i) idx valid →
  Forall2 (λ i v, x !! i = Some v) idx rows →
  Forall2 (λ e v, ∃ i, PyDict.get e2n e = Some i ∧ x !! i = Some v) valid rows.
Proof.
  intros Hidx. revert rows. induction Hidx as [|j e idx valid Hj _ IH]; intros rows Hrows.
  - apply Forall2_nil_inv_l in Hrows. subst. constructor.
  - apply Forall2_cons_inv_l in Hrows as (v & rows' & Hv & Hrows & ->).
    constructor; [eauto | by apply IH].
Qed.

(** [get_embeddings(entity_ids)] on a well-formed service: it returns, its
    keys are the requested identifiers that are mapped, and each value is
    the row of the embedding table at the identifier's index. *)
Lemma get_embeddings_some_spec (svc : EmbeddingService) (ids : list string) :
  service_wf svc →
  ∃ d, get_embeddings svc (Some ids) = Ok d
    ∧ NoDup d.*1
    ∧ (∀ e, e ∈ d.*1 ↔ e ∈ ids ∧ is_Some (PyDict.get (svc_entity_to_node svc) e))
    ∧ Forall (λ kv, ∃ i, PyDict.get (svc_entity_to_node svc) kv.1 = Some i
                      ∧ node_embedding (svc_model svc) !! i = Some kv.2) d.
Proof.
  intros [Hwf _]. unfold get_embeddings.
  pose proof (resolve_ids_valid (svc_entity_to_node svc) ids) as Hvalid.
  pose proof (resolve_ids_indices (svc_entity_to_node svc) ids) as Hidx.
  destruct (resolve_ids (svc_entity_to_node svc) ids) as [ni valid]. simpl in *.
  destruct ni as [|i ni].
  - apply Forall2_nil_inv_l in Hidx. rewrite Hidx in Hvalid. exists []. split; [done|].
    split; [constructor|]. split; [|constructor].
    intros e. rewrite elem_of_nil. split; [done|]. intros [He Hs].
    assert (e ∈ filter (λ e, is_Some (PyDict.get (svc_entity_to_node svc) e)) ids)
      as Hin by (by apply list_elem_of_filter).
    rewrite <- Hvalid in Hin. by apply elem_of_nil in Hin.
  - destruct (gather_ok (node_embedding (svc_model svc)) (i :: ni)) as (rows & -> & Hrows).
    { apply Forall_forall. intros j Hj.
      apply list_elem_of_lookup_1 in Hj as [n Hn].
      destruct (Forall2_lookup_l _ _ _ _ _ Hidx Hn) as (e & _ & He).
      apply get_Some_elem_of in He. rewrite Forall_forall in Hwf.
      by apply (Hwf (e, j)). }
    simpl. eexists. split; [done|]. split; [apply of_zip_NoDup|]. split.
    + intros e. rewrite of_zip_keys.
      * by rewrite Hvalid, list_elem_of_filter, (comm and).
      * apply Forall2_length in Hidx, Hrows. lia.
    + apply (of_zip_Forall (λ e v, ∃ i0, PyDict.get (svc_entity_to_node svc) e = Some i0
          ∧ node_embedding (svc_model svc) !! i0 = Some v)).
      eapply Forall2_resolved; eauto.
Qed.

Lemma all_embeddings_loop_ok (x : matrix) (items : list (nat * string))
    (res : pydict string vec) :
  Forall (λ kv, kv.1 < length x) items →
  ∃ vs, Forall2 (λ kv v, x !! kv.1 = Some v) items vs
    ∧ all_embeddings_loop x items res
      = Ok (foldl (λ d kv, PyDict.set d kv.1 kv.2) res (zip items.*2 vs)).
Proof.
  intros Hwf. revert res. induction Hwf as [|[i e] items Hi _ IH]; intros res; simpl.
  - exists []. split; [constructor | done].
  - apply lookup_lt_is_Some_2 in Hi as [v Hv]. simpl in Hv.
    unfold row. rewrite Hv. simpl.
    destruct (IH (PyDict.set res e v)) as (vs & Hvs & ->).
    exists (v :: vs). split; [by constructor | done].
Qed.

(** [get_embeddings()] on a well-formed service: it returns, and each value
    is the row of the embedding table at an index of its key. *)
Lemma get_embeddings_all_spec (svc : EmbeddingService) :
  service_wf svc →
  ∃ d, get_embeddings svc None = Ok d
    ∧ NoDup d.*1
    ∧ (∀ e, e ∈ d.*1 ↔ e ∈ (svc_node_to_entity svc).*2)
    ∧ Forall (λ kv, ∃ i, (i, kv.1) ∈ svc_node_to_entity svc
                      ∧ node_embedding (svc_model svc) !! i = Some kv.2) d.
Proof.
  intros [_ Hwf]. simpl.
  destruct (all_embeddings_loop_ok _ _ [] Hwf) as (vs & Hvs & ->).
  eexists. split; [done|]. split; [apply foldl_set_NoDup; constructor|].
  pose proof (Forall2_length _ _ _ Hvs) as Hlen. split.
  - intros e. rewrite foldl_set_keys, fst_zip by (rewrite length_fmap; lia).
    simpl. rewrite elem_of_nil. tauto.
  - apply foldl_set_Forall; [constructor|].
    clear Hwf Hlen. induction Hvs as [|[i e] v items vs Hv _ IH]; simpl; [constructor|].
    constructor.
    + exists i. split; [apply elem_of_cons; auto | done].
    + eapply Forall_impl; [apply IH|]. intros [e' v'] (j & Hj & Hv'). simpl in *.
      exists j. split; [apply elem_of_cons; auto | done].
Qed.

(** ** [find_similar_entities] *)

Section find_similar.
Variable cosine_similarity : vec → vec → Q.

Lemma find_similar_entities_unmapped (svc : EmbeddingService) (q : string) (k : Z) :
  PyDict.get (svc_entity_to_node svc) q = None →
  find_similar_entities cosine_similarity svc q k = Ok [].
Proof.
  intros Hq. unfold find_similar_entities, PyDict.contains. by rewrite Hq.
Qed.

(** For a mapped query the function returns: it ranks the entries the loop
    builds from the row of the query and the dictionary of all embeddings. *)
Lemma find_similar_entities_mapped (svc : EmbeddingService) (q : string) (k : Z) (i : nat) :
  service_wf svc →
  PyDict.get (svc_entity_to_node svc) q = Some i →
  ∃ v all_embeddings,
    node_embedding (svc_model svc) !! i = Some v
    ∧ get_embeddings svc None = Ok all_embeddings
    ∧ find_similar_entities cosine_similarity svc q k
      = Ok (slice_to (sort_desc score
              (similarity_loop cosine_similarity q v all_embeddings)) k).
Proof.
  intros Hwf Hq.
  destruct (get_embeddings_all_spec svc Hwf) as (d & Hall & _).
  assert (is_Some (node_embedding (svc_model svc) !! i)) as [v Hv].
  { apply lookup_lt_is_Some_2. destruct Hwf as [Hwf _].
    rewrite Forall_forall in Hwf. apply (Hwf (q, i)). by apply get_Some_elem_of. }
  exists v, d. split; [done|]. split; [done|].
  unfold find_similar_entities, PyDict.contains. rewrite Hq. simpl.
  rewrite Hq. simpl. unfold gather. simpl. unfold row. rewrite Hv. simpl.
  rewrite decide_True by done. simpl. simpl in Hall. rewrite Hall. done.
Qed.

Lemma similarity_loop_filter (q : string) (v : vec) (items : list (string * vec)) :
  similarity_loop cosine_similarity q v items
  = map (λ kv, {| entity_id := kv.1; score := cosine_similarity v kv.2;
                  label := "Entity" |})
      (filter (λ kv, kv.1 ≠ q) items).
Proof.
  induction items as [|[e w] items IH]; simpl; [done|].
  rewrite filter_cons. simpl. destruct (decide (e = q)) as [->|Hne].
  - by rewrite decide_False by auto.
  - rewrite decide_True by auto. simpl. by rewrite IH.
Qed.

End find_similar.

(** ** Slices *)

Lemma slice_to_take {A : Type} (l : list A) (k : Z) :
  ∃ n, slice_to l k = take n l.
Proof. unfold slice_to. destruct (0 <=? k)%Z; eauto. Qed.

Lemma slice_to_zero {A : Type} (l : list A) : slice_to l 0 = [].
Proof. done. Qed.

Lemma slice_to_all {A : Type} (l : list A) (k : Z) :
  (Z.of_nat (length l) <= k)%Z → slice_to l k = l.
Proof.
  intros Hk. unfold slice_to. rewrite (proj2 (Z.leb_le 0 k)) by lia.
  apply take_ge. lia.
Qed.

Lemma slice_to_length {A : Type} (l : list A) (k : Z) :
  length (slice_to l k)
  = if (0 <=? k)%Z then Nat.min (Z.to_nat k) (length l)
    else length l - Z.to_nat (- k).
Proof.
  unfold slice_to. destruct (0 <=? k)%Z; rewrite length_take; lia.
Qed.

(** ** The claims on the embedding service *)

Lemma slice_to_Forall {A : Type} (P : A → Prop) (l : list A) (k : Z) :
  Forall P l → Forall P (slice_to l k).
Proof.
  intros HP. destruct (slice_to_take l k) as [n ->]. by apply Forall_take.
Qed.

(** C10: on a well-formed service [find_similar_entities] returns, whatever
    the query and [top_k], and every entry of the list it returns has the
    label ["Entity"]. *)
Theorem find_similar_label_constant (cosine_similarity : vec → vec → Q)
    (svc : EmbeddingService) (q : string) (top_k : Z) :
  service_wf svc →
  ∃ r, find_similar_entities cosine_similarity svc q top_k = Ok r
     ∧ Forall (λ x, label x = "Entity") r.
Proof.
  intros Hwf. destruct (PyDict.get (svc_entity_to_node svc) q) as [i|] eqn:Hq.
  - destruct (find_similar_entities_mapped cosine_similarity svc q top_k i Hwf Hq)
      as (v & d & _ & _ & ->).
    eexists. split; [done|]. apply slice_to_Forall.
    rewrite sort_desc_perm, similarity_loop_filter.
    apply Forall_forall. intros x Hx.
    apply list_elem_of_fmap in Hx as (kv & -> & _). done.
  - rewrite find_similar_entities_unmapped by done. eexists. split; [done|constructor].
Qed.

Lemma find_similar_label_constant_witness :
  service_wf example_service
  ∧ ∃ r, find_similar_entities cosine_rational example_service "A" 10 = Ok r
       ∧ Forall (λ x, label x = "Entity") r.
Proof.
  assert (service_wf example_service) as Hwf
    by (apply (bool_decide_unpack _); vm_compute; reflexivity).
  split; [exact Hwf|].
  exact (find_similar_label_constant cosine_rational example_service "A" 10 Hwf).
Defined.

(** C8: on a well-formed service [get_embeddings] returns a dictionary
    whose keys are exactly the requested identifiers that have a mapping,
    each once, and [find_similar_entities] returns the empty list for an
    identifier that has none; neither raises. *)
Theorem unresolved_identifiers_dropped (cosine_similarity : vec → vec → Q)
    (svc : EmbeddingService) (ids : list string) (q : string) (top_k : Z) :
  service_wf svc →
  (∃ d, get_embeddings svc (Some ids) = Ok d
      ∧ NoDup d.*1
      ∧ ∀ e, e ∈ d.*1 ↔ e ∈ ids ∧ is_Some (PyDict.get (svc_entity_to_node svc) e))
  ∧ (PyDict.get (svc_entity_to_node svc) q = None →
     find_similar_entities cosine_similarity svc q top_k = Ok []).
Proof.
  intros Hwf. split.
  - destruct (get_embeddings_some_spec svc ids Hwf) as (d & Hd & Hnd & Hkeys & _).
    eauto.
  - apply find_similar_entities_unmapped.
Qed.

Lemma unresolved_identifiers_dropped_witness :
  service_wf example_service
  ∧ (∃ d, get_embeddings example_service (Some ["A"; "Z"]) = Ok d
        ∧ NoDup d.*1
        ∧ ∀ e, e ∈ d.*1
               ↔ e ∈ ["A"; "Z"]
                 ∧ is_Some (PyDict.get (svc_entity_to_node example_service) e))
  ∧ (PyDict.get (svc_entity_to_node example_service) "Z" = None →
     find_similar_entities cosine_rational example_service "Z" 10 = Ok []).
Proof.
  assert (service_wf example_service) as Hwf
    by (apply (bool_decide_unpack _); vm_compute; reflexivity).
  split; [exact Hwf|].
  exact (unresolved_identifiers_dropped cosine_rational example_service
           ["A"; "Z"] "Z" 10 Hwf).
Defined.

(** The scenario of the specification: of A and Z only A comes back. *)
Example get_embeddings_A_Z :
  get_embeddings example_service (Some ["A"; "Z"]) = Ok [("A", [3; 4]%Q)].
Proof. reflexivity. Qed.




(** C3 on the code: for [top_k = -1] and the two candidates B and C the
    function returns B instead of the empty list. *)
Lemma find_similar_negative_top_k :
  find_similar_entities cosine_rational example_service "A" (-1)
  = Ok [{| entity_id := "B"; score := 24 # 25; label := "Entity" |}].
Proof. reflexivity. Qed.

(** ** The graph index built by [startup] *)

Lemma enumerate_from_fst {A : Type} (s : nat) (l : list A) :
  (enumerate_from s l).*1 = seq s (length l).
Proof. revert s. induction l as [|x l IH]; intros s; simpl; [done|]. by rewrite IH. Qed.

Lemma enumerate_from_snd {A : Type} (s : nat) (l : list A) :
  (enumerate_from s l).*2 = l.
Proof. revert s. induction l as [|x l IH]; intros s; simpl; [done|]. by rewrite IH. Qed.

Lemma enumerate_from_length {A : Type} (s : nat) (l : list A) :
  length (enumerate_from s l) = length l.
Proof. revert s. induction l as [|x l IH]; intros s; simpl; [done|]. by rewrite IH. Qed.

Lemma elem_of_enumerate_from {A : Type} (s : nat) (l : list A) (i : nat) (x : A) :
  (i, x) ∈ enumerate_from s l ↔ (s ≤ i)%nat ∧ l !! (i - s) = Some x.
Proof.
  revert s. induction l as [|y l IH]; intros s; simpl.
  - rewrite elem_of_nil. split; [done|]. by intros [_ ?].
  - rewrite elem_of_cons, IH. split.
    + intros [[= -> ->]|[Hle Hx]].
      * split; [lia|]. by rewrite Nat.sub_diag.
      * split; [lia|]. by replace (i - s) with (S (i - S s)) by lia.
    + intros [Hle Hx]. destruct (decide (i = s)) as [->|Hne].
      * left. rewrite Nat.sub_diag in Hx. simpl in Hx. congruence.
      * right. split; [lia|]. by replace (i - s) with (S (i - S s)) in Hx by lia.
Qed.

(** With fresh, pairwise distinct keys on both sides the loop appends. *)
Lemma build_mappings_fresh (items : list (nat * string))
    (n2e : pydict nat string) (e2n : pydict string nat) :
  NoDup ((n2e.*1) ++ (items.*1)) → NoDup ((e2n.*1) ++ (items.*2)) →
  build_mappings items n2e e2n
  = (n2e ++ items, e2n ++ map (λ kv, (kv.2, kv.1)) items).
Proof.
  revert n2e e2n. induction items as [|[i e] items IH]; intros n2e e2n Hn He; simpl.
  - by rewrite !app_nil_r.
  - simpl in *.
    assert ((i ∉ n2e.*1) ∧ (e ∉ e2n.*1)) as [Hi He'].
    { apply NoDup_app in Hn as (_ & Hn & _), He as (_ & He & _).
      split; intros Hin; [eapply Hn | eapply He]; eauto; apply elem_of_cons; auto. }
    rewrite !set_fresh by done. rewrite IH.
    + by rewrite <- !app_assoc.
    + rewrite fmap_app. simpl. by rewrite <- app_assoc.
    + rewrite fmap_app. simpl. by rewrite <- app_assoc.
Qed.

Lemma build_mappings_NoDup (ids : list string) :
  NoDup ids →
  build_mappings (enumerate ids) [] []
  = (enumerate ids, map (λ kv, (kv.2, kv.1)) (enumerate ids)).
Proof.
  intros Hnd. apply (build_mappings_fresh _ [] []); simpl.
  - unfold enumerate. rewrite enumerate_from_fst. apply NoDup_seq.
  - unfold enumerate. by rewrite enumerate_from_snd.
Qed.

(** The left mapping never loses a node: its keys are the loop indices. *)
Lemma build_mappings_node_to_entity (items : list (nat * string))
    (n2e : pydict nat string) (e2n : pydict string nat) :
  NoDup ((n2e.*1) ++ (items.*1)) →
  (build_mappings items n2e e2n).1 = n2e ++ items.
Proof.
  revert n2e e2n. induction items as [|[i e] items IH]; intros n2e e2n Hn; simpl.
  - by rewrite app_nil_r.
  - simpl in *. assert (i ∉ n2e.*1) as Hi.
    { apply NoDup_app in Hn as (_ & Hn & _). intros Hin. eapply Hn; eauto.
      apply elem_of_cons; auto. }
    rewrite set_fresh by done. rewrite IH.
    + by rewrite <- app_assoc.
    + rewrite fmap_app. simpl. by rewrite <- app_assoc.
Qed.

Lemma get_enumerate {A : Type} (l : list A) (i : nat) :
  PyDict.get (enumerate l) i = l !! i.
Proof.
  assert (NoDup (enumerate l).*1) as Hnd.
  { unfold enumerate. rewrite enumerate_from_fst. apply NoDup_seq. }
  destruct (l !! i) as [x|] eqn:E.
  - apply get_elem_of; [done|]. apply elem_of_enumerate_from.
    split; [lia|]. by rewrite Nat.sub_0_r.
  - apply get_None_keys. unfold enumerate. rewrite enumerate_from_fst.
    apply lookup_ge_None in E. rewrite elem_of_seq. lia.
Qed.

Lemma get_enumerate_inverse (l : list string) (e : string) (i : nat) :
  NoDup l →
  PyDict.get (map (λ kv : nat * string, (kv.2, kv.1)) (enumerate l)) e = Some i
  ↔ l !! i = Some e.
Proof.
  intros Hnd.
  assert (NoDup (map (λ kv : nat * string, (kv.2, kv.1)) (enumerate l)).*1) as Hk.
  { replace ((map (λ kv : nat * string, (kv.2, kv.1)) (enumerate l)).*1)
      with ((enumerate l).*2) by (by rewrite <- list_fmap_compose).
    unfold enumerate. by rewrite enumerate_from_snd. }
  split.
  - intros Hget. apply get_Some_elem_of in Hget.
    apply list_elem_of_fmap in Hget as ([j x] & [= -> ->] & Hin).
    apply elem_of_enumerate_from in Hin as [_ Hin]. by rewrite Nat.sub_0_r in Hin.
  - intros Hl. apply get_elem_of; [done|].
    apply list_elem_of_fmap. exists (i, e). split; [done|].
    apply elem_of_enumerate_from. split; [lia|]. by rewrite Nat.sub_0_r.
Qed.

Lemma startup_mappings {optimizer_state : Type} (gd : graph_data) (cfg : config)
    (ini : initializer) (o : optimizer_state) (snapshot : option state_dict) :
  NoDup (entity_ids gd) →
  node_to_entity (startup true gd cfg ini o snapshot initial_state)
    = enumerate (entity_ids gd)
  ∧ entity_to_node (startup true gd cfg ini o snapshot initial_state)
    = map (λ kv, (kv.2, kv.1)) (enumerate (entity_ids gd)).
Proof.
  intros Hnd. unfold startup. simpl. case_decide as Hlen.
  - apply nil_length_inv in Hlen. rewrite Hlen. done.
  - rewrite (build_mappings_NoDup _ Hnd). done.
Qed.

(** C5, for pairwise distinct identifiers: after [startup] the two
    mappings have one entry per node, every index below [num_nodes] is
    mapped, and each mapping is the inverse of the other. *)
Theorem startup_mappings_bijective {optimizer_state : Type} (gd : graph_data)
    (cfg : config) (ini : initializer) (o : optimizer_state)
    (snapshot : option state_dict) :
  NoDup (entity_ids gd) →
  length (entity_to_node (startup true gd cfg ini o snapshot initial_state))
    = length (entity_ids gd)
  ∧ length (node_to_entity (startup true gd cfg ini o snapshot initial_state))
    = length (entity_ids gd)
  ∧ (∀ i, i < length (entity_ids gd) →
       is_Some (PyDict.get
         (node_to_entity (startup true gd cfg ini o snapshot initial_state)) i))
  ∧ (∀ e i,
       PyDict.get (entity_to_node (startup true gd cfg ini o snapshot initial_state)) e
         = Some i
       ↔ PyDict.get (node_to_entity (startup true gd cfg ini o snapshot initial_state)) i
         = Some e).
Proof.
  intros Hnd. destruct (startup_mappings gd cfg ini o snapshot Hnd) as [-> ->].
  rewrite length_map. unfold enumerate at 1 2. rewrite !enumerate_from_length.
  split; [done|]. split; [done|]. split.
  - intros i Hi. rewrite get_enumerate. by apply lookup_lt_is_Some_2.
  - intros e i. rewrite get_enumerate. by apply get_enumerate_inverse.
Qed.

Lemma startup_mappings_bijective_witness :
  NoDup (entity_ids example_graph)
  ∧ length (entity_to_node example_state) = 3
  ∧ length (node_to_entity example_state) = 3
  ∧ (∀ i, i < 3 → is_Some (PyDict.get (node_to_entity example_state) i))
  ∧ (∀ e i, PyDict.get (entity_to_node example_state) e = Some i
            ↔ PyDict.get (node_to_entity example_state) i = Some e).
Proof.
  assert (NoDup (entity_ids example_graph)) as Hnd
    by (apply (bool_decide_unpack _); vm_compute; reflexivity).
  split; [exact Hnd|].
  exact (startup_mappings_bijective example_graph example_cfg example_ini tt None Hnd).
Defined.

(** C5 as stated fails where two nodes carry one identifier: the node
    loop of the connector hands both on, [entity_to_node] keeps one entry for
    them, and node 1 maps to B while B maps to node 3. *)
Lemma duplicate_identifiers_not_bijective :
  (get_graph_data_nodes duplicate_nodes).1.2 = entity_ids duplicate_graph
  ∧ length (entity_ids duplicate_graph) = 4
  ∧ length (node_to_entity duplicate_state) = 4
  ∧ length (entity_to_node duplicate_state) = 3
  ∧ PyDict.get (node_to_entity duplicate_state) 1 = Some "B"
  ∧ PyDict.get (entity_to_node duplicate_state) "B" = Some 3.
Proof. repeat split; reflexivity. Qed.

(** The fallback identifier of a node without one can collide too. *)
Example fallback_identifier_collides :
  (get_graph_data_nodes
     [ {| rec_neo4j_id := 5; rec_entity_id := Some "node_1"; rec_label := None |};
       {| rec_neo4j_id := 7; rec_entity_id := None; rec_label := None |} ]).1.2
  = ["node_1"; "node_1"].
Proof. reflexivity. Qed.

(** Whatever the identifiers, [node_to_entity] has one entry per node. *)
Lemma startup_node_to_entity {optimizer_state : Type} (gd : graph_data) (cfg : config)
    (ini : initializer) (o : optimizer_state) (snapshot : option state_dict) :
  node_to_entity (startup true gd cfg ini o snapshot initial_state)
  = enumerate (entity_ids gd).
Proof.
  unfold startup. simpl. case_decide as Hlen.
  - apply nil_length_inv in Hlen. rewrite Hlen. done.
  - pose proof (build_mappings_node_to_entity (enumerate (entity_ids gd)) [] []) as H.
    destruct (build_mappings (enumerate (entity_ids gd)) [] []) as [n2e e2n].
    simpl in *. apply H. unfold enumerate. rewrite enumerate_from_fst. apply NoDup_seq.
Qed.

(** ** An empty graph *)

(** C4, as the code has it: for an empty entity list [startup] returns
    normally, having constructed neither model nor trainer and left the
    mappings empty; the requests that need the model then raise the HTTP
    error 503. *)
Theorem startup_empty_graph (cosine_similarity : vec → vec → Q)
    {generator : Type} (randint : nat → nat → nat → generator → list nat * generator)
    (binary_cross_entropy_with_logits : list Q → list Q → Q)
    {optimizer_state : Type}
    (backward_step : RGCNModel → optimizer_state → edge_index_t → edge_type_t →
                     edge_index_t → RGCNModel * optimizer_state)
    (gd : graph_data) (cfg : config) (ini : initializer) (o : optimizer_state)
    (snapshot : option state_dict) :
  entity_ids gd = [] →
  ∃ st, startup true gd cfg ini o snapshot initial_state = st
    ∧ model st = None ∧ trainer st = None
    ∧ node_to_entity st = [] ∧ entity_to_node st = []
    ∧ graph_data_cache st = Some gd
    ∧ (∀ ids, post_embeddings st ids
              = (Raise (HTTPException 503 "Model not loaded"), st))
    ∧ (∀ q k, post_similar cosine_similarity st q k
              = (Raise (HTTPException 503 "Model not loaded"), st))
    ∧ (∀ g epochs,
         post_train randint binary_cross_entropy_with_logits backward_step st g epochs
         = (Raise (HTTPException 503 "Model or trainer not initialized"), st, g)).
Proof.
  intros Hids. eexists. split; [reflexivity|].
  unfold startup. rewrite Hids. simpl. repeat split.
Qed.

Lemma startup_empty_graph_witness :
  entity_ids empty_graph = []
  ∧ ∃ st : app_state unit,
      startup true empty_graph example_cfg example_ini tt None initial_state = st
    ∧ model st = None ∧ trainer st = None
    ∧ node_to_entity st = [] ∧ entity_to_node st = []
    ∧ graph_data_cache st = Some empty_graph
    ∧ (∀ ids, post_embeddings st ids
              = (Raise (HTTPException 503 "Model not loaded"), st))
    ∧ (∀ q k, post_similar cosine_rational st q k
              = (Raise (HTTPException 503 "Model not loaded"), st))
    ∧ (∀ g epochs, post_train counter_randint linear_bce null_step st g epochs
         = (Raise (HTTPException 503 "Model or trainer not initialized"), st, g)).
Proof.
  split; [reflexivity|].
  exact (startup_empty_graph cosine_rational counter_randint linear_bce null_step
           empty_graph example_cfg example_ini tt None eq_refl).
Defined.

(** C4 as stated fails: on the empty graph [startup] returns a state, and
    the first error a caller sees is the 503 of a later request. *)
Lemma startup_empty_graph_returns :
  startup true empty_graph example_cfg example_ini tt None initial_state
  = {| model := None; trainer := None; node_to_entity := []; entity_to_node := [];
       graph_data_cache := Some empty_graph;
       stats := {| total_queries := 0; avg_similarity := 0%Q;
                   embeddings_count := 0 |} |}
  ∧ (post_embeddings
       (startup true empty_graph example_cfg example_ini tt None initial_state)
       ["A"]).1
    = Raise (HTTPException 503 "Model not loaded").
Proof. split; reflexivity. Qed.

(** ** The order of the entries [find_similar_entities] returns *)

Lemma StronglySorted_lookup_2 {A : Type} (R : relation A) (l : list A) :
  (∀ i j x y, i < j → l !! i = Some x → l !! j = Some y → R x y) →
  StronglySorted R l.
Proof.
  induction l as [|z l IH]; intros H; constructor.
  - apply IH. intros i j x y Hij Hi Hj. by apply (H (S i) (S j) x y); [lia|..].
  - apply Forall_forall. intros y Hy. apply list_elem_of_lookup_1 in Hy as [j Hj].
    by apply (H 0 (S j) z y); [lia|..].
Qed.

Lemma StronglySorted_filter {A : Type} (R : relation A) (P : A → Prop)
    `{!∀ x, Decision (P x)} (l : list A) :
  StronglySorted R l → StronglySorted R (filter P l).
Proof.
  induction 1 as [|x l Hs IH Hx]; [constructor|].
  rewrite filter_cons. case_decide; [|done].
  constructor; [done|]. apply Forall_forall. intros y Hy.
  apply list_elem_of_filter in Hy as [_ Hy]. rewrite Forall_forall in Hx. by apply Hx.
Qed.

Lemma foldl_set_fresh {K V : Type} `{EqDecision K} (d kvs : list (K * V)) :
  NoDup ((d.*1) ++ (kvs.*1)) →
  foldl (λ d kv, PyDict.set d kv.1 kv.2) d kvs = d ++ kvs.
Proof.
  revert d. induction kvs as [|[k v] kvs IH]; intros d Hnd; simpl.
  - by rewrite app_nil_r.
  - simpl in Hnd. assert (k ∉ d.*1) as Hk.
    { apply NoDup_app in Hnd as (_ & Hnd & _). intros Hin. eapply Hnd; eauto.
      apply elem_of_cons; auto. }
    rewrite set_fresh by done. rewrite IH.
    + by rewrite <- app_assoc.
    + rewrite fmap_app. simpl. by rewrite <- app_assoc.
Qed.

Section indexed.
Variable cosine_similarity : vec → vec → Q.
Variables (m : RGCNModel) (ids : list string).
Hypothesis ids_NoDup : NoDup ids.
Hypothesis ids_rows : (length ids ≤ length (node_embedding m))%nat.

Lemma indexed_service_mappings :
  svc_node_to_entity (indexed_service m ids) = enumerate ids
  ∧ svc_entity_to_node (indexed_service m ids)
    = map (λ kv, (kv.2, kv.1)) (enumerate ids).
Proof. unfold indexed_service. simpl. by rewrite build_mappings_NoDup. Qed.

Lemma indexed_service_index (e : string) (i : nat) :
  PyDict.get (svc_entity_to_node (indexed_service m ids)) e = Some i
  ↔ ids !! i = Some e.
Proof.
  destruct indexed_service_mappings as [_ ->]. by apply get_enumerate_inverse.
Qed.

Lemma indexed_service_wf : service_wf (indexed_service m ids).
Proof.
  destruct indexed_service_mappings as [Hn He]. unfold service_wf.
  rewrite Hn, He. split; apply Forall_forall.
  - intros [e i] Hin. apply list_elem_of_fmap in Hin as ([j x] & [= -> ->] & Hin).
    apply elem_of_enumerate_from in Hin as [_ Hin].
    apply lookup_lt_Some in Hin. simpl. lia.
  - intros [i e] Hin. apply elem_of_enumerate_from in Hin as [_ Hin].
    apply lookup_lt_Some in Hin. simpl. lia.
Qed.

(** The dictionary of all embeddings lists the identifiers in index order. *)
Lemma indexed_service_all_embeddings :
  ∃ vs, length vs = length ids
      ∧ get_embeddings (indexed_service m ids) None = Ok (zip ids vs).
Proof.
  destruct indexed_service_wf as [_ Hwf].
  destruct (all_embeddings_loop_ok _ _ [] Hwf) as (vs & Hvs & Hloop).
  unfold get_embeddings. rewrite Hloop. clear Hloop Hwf.
  destruct indexed_service_mappings as [Hn _]. rewrite Hn in *.
  apply Forall2_length in Hvs. unfold enumerate in *.
  rewrite enumerate_from_length in Hvs. rewrite enumerate_from_snd.
  exists vs. split; [done|]. f_equal. apply (foldl_set_fresh []). simpl.
  rewrite fst_zip by lia. done.
Qed.

Lemma indexed_candidates_sorted (q : string) (v : vec) (vs : list vec) :
  StronglySorted
    (λ x y, ∃ a b, ids !! a = Some (entity_id x) ∧ ids !! b = Some (entity_id y)
                 ∧ a < b)
    (similarity_loop cosine_similarity q v (zip ids vs)).
Proof.
  rewrite similarity_loop_filter.
  apply (StronglySorted_fmap _
    (λ kv kv' : string * vec, ∃ a b, ids !! a = Some kv.1 ∧ ids !! b = Some kv'.1
                                   ∧ a < b)); [done|].
  apply StronglySorted_filter, StronglySorted_lookup_2.
  intros i j [e w] [e' w'] Hij Hi Hj.
  apply lookup_zip_Some in Hi as [Hi _], Hj as [Hj _]. simpl. eauto.
Qed.

Lemma find_similar_indexed_sorted (q : string) (top_k : Z) :
  ∃ r, find_similar_entities cosine_similarity (indexed_service m ids) q top_k = Ok r
     ∧ StronglySorted
         (desc_then score
            (λ x y, ∃ a b, ids !! a = Some (entity_id x)
                         ∧ ids !! b = Some (entity_id y) ∧ a < b)) r.
Proof.
  destruct (PyDict.get (svc_entity_to_node (indexed_service m ids)) q) as [i|] eqn:Hq.
  - destruct (find_similar_entities_mapped cosine_similarity _ q top_k i
                indexed_service_wf Hq) as (v & d & _ & Hall & ->).
    destruct indexed_service_all_embeddings as (vs & _ & Hall').
    rewrite Hall' in Hall. injection Hall as <-.
    eexists. split; [done|]. destruct (slice_to_take
      (sort_desc score (similarity_loop cosine_similarity q v (zip ids vs))) top_k)
      as [n ->].
    apply StronglySorted_take, sort_desc_stable, indexed_candidates_sorted.
  - rewrite find_similar_entities_unmapped by done.
    eexists. split; [done|constructor].
Qed.

End indexed.

Lemma build_mappings_Forall (P1 : nat * string → Prop) (P2 : string * nat → Prop)
    (items : list (nat * string)) (n2e : pydict nat string) (e2n : pydict string nat) :
  Forall P1 n2e → Forall P2 e2n →
  Forall (λ kv, P1 kv ∧ P2 (kv.2, kv.1)) items →
  Forall P1 (build_mappings items n2e e2n).1
  ∧ Forall P2 (build_mappings items n2e e2n).2.
Proof.
  intros H1 H2 Hitems. revert n2e e2n H1 H2.
  induction Hitems as [|[i e] items [Hi He] _ IH]; intros n2e e2n H1 H2; simpl.
  - done.
  - apply IH; apply Forall_forall; intros kv Hkv;
      apply elem_of_set in Hkv as [->|Hkv]; try done.
    + rewrite Forall_forall in H1. by apply H1.
    + rewrite Forall_forall in H2. by apply H2.
Qed.

(** The service [startup] builds is well formed, whatever the identifiers. *)
Lemma indexed_service_wf_any (m : RGCNModel) (ids : list string) :
  (length ids ≤ length (node_embedding m))%nat →
  service_wf (indexed_service m ids).
Proof.
  intros Hlen. unfold service_wf, indexed_service. simpl.
  destruct (build_mappings_Forall
    (λ kv, kv.1 < length (node_embedding m)) (λ kv, kv.2 < length (node_embedding m))
    (enumerate ids) [] []) as [H1 H2]; [constructor..| |by split].
  apply Forall_forall. intros [i e] Hin.
  apply elem_of_enumerate_from in Hin as [_ Hin]. apply lookup_lt_Some in Hin.
  simpl. lia.
Qed.

(** On any well-formed service the scores come in non-increasing order. *)
Lemma find_similar_scores_sorted (cosine_similarity : vec → vec → Q)
    (svc : EmbeddingService) (q : string) (top_k : Z) :
  service_wf svc →
  ∃ r, find_similar_entities cosine_similarity svc q top_k = Ok r
     ∧ StronglySorted (λ x y, (score y <= score x)%Q) r.
Proof.
  intros Hwf. destruct (PyDict.get (svc_entity_to_node svc) q) as [i|] eqn:Hq.
  - destruct (find_similar_entities_mapped cosine_similarity svc q top_k i Hwf Hq)
      as (v & d & _ & _ & ->).
    eexists. split; [done|].
    destruct (slice_to_take
      (sort_desc score (similarity_loop cosine_similarity q v d)) top_k) as [n ->].
    apply StronglySorted_take, sort_desc_sorted.
  - rewrite find_similar_entities_unmapped by done.
    eexists. split; [done|constructor].
Qed.

(** C2: on the service [startup] builds, [find_similar_entities] returns
    a list whose scores are in non-increasing order, whatever the
    identifiers; and where the identifiers are pairwise distinct, of two
    entries with equal scores the one whose entity has the lower node
    index comes first. *)
Theorem find_similar_sorted_ties_by_index (cosine_similarity : vec → vec → Q)
    (m : RGCNModel) (ids : list string) (q : string) (top_k : Z) :
  (length ids ≤ length (node_embedding m))%nat →
  ∃ r, find_similar_entities cosine_similarity (indexed_service m ids) q top_k = Ok r
     ∧ StronglySorted (λ x y, (score y <= score x)%Q) r
     ∧ (NoDup ids →
        ∀ i j x y, i < j → r !! i = Some x → r !! j = Some y →
          (score x == score y)%Q →
          ∃ a b,
            PyDict.get (svc_entity_to_node (indexed_service m ids)) (entity_id x)
            = Some a
            ∧ PyDict.get (svc_entity_to_node (indexed_service m ids)) (entity_id y)
              = Some b
            ∧ a < b).
Proof.
  intros Hlen.
  destruct (find_similar_scores_sorted cosine_similarity (indexed_service m ids)
              q top_k (indexed_service_wf_any m ids Hlen)) as (r & Hr & Hsorted).
  exists r. split; [done|]. split; [done|].
  intros Hnd i j x y Hij Hi Hj Heq.
  destruct (find_similar_indexed_sorted cosine_similarity m ids Hnd Hlen q top_k)
    as (r' & Hr' & Hs).
  assert (r' = r) as -> by congruence.
  destruct (StronglySorted_lookup _ _ _ _ _ _ Hs Hij Hi Hj)
    as [Hlt|[_ (a & b & Ha & Hb & Hab)]].
  - rewrite Heq in Hlt. by apply Qlt_irrefl in Hlt.
  - exists a, b. by rewrite !indexed_service_index.
Qed.

(** Four distinct identifiers, of which C and D have equal rows: asked for
    A, they tie at 4/5 and come in index order. *)
Lemma find_similar_sorted_ties_by_index_witness :
  (length ["A"; "B"; "C"; "D"]
   ≤ length (node_embedding (RGCNModel_init example_ini 4 1 2 2 1)))%nat
  ∧ NoDup ["A"; "B"; "C"; "D"]
  ∧ ∃ r, find_similar_entities cosine_rational
           (indexed_service (RGCNModel_init example_ini 4 1 2 2 1)
              ["A"; "B"; "C"; "D"]) "A" 10 = Ok r
     ∧ r = [{| entity_id := "B"; score := 24 # 25; label := "Entity" |};
            {| entity_id := "C"; score := 4 # 5; label := "Entity" |};
            {| entity_id := "D"; score := 4 # 5; label := "Entity" |}]
     ∧ StronglySorted (λ x y, (score y <= score x)%Q) r
     ∧ ∀ i j x y, i < j → r !! i = Some x → r !! j = Some y →
         (score x == score y)%Q →
         ∃ a b,
           PyDict.get (svc_entity_to_node
                         (indexed_service (RGCNModel_init example_ini 4 1 2 2 1)
                            ["A"; "B"; "C"; "D"])) (entity_id x) = Some a
           ∧ PyDict.get (svc_entity_to_node
                           (indexed_service (RGCNModel_init example_ini 4 1 2 2 1)
                              ["A"; "B"; "C"; "D"])) (entity_id y) = Some b
           ∧ a < b.
Proof.
  assert (NoDup ["A"; "B"; "C"; "D"]) as Hnd
    by (apply (bool_decide_unpack _); vm_compute; reflexivity).
  assert ((length ["A"; "B"; "C"; "D"]
           ≤ length (node_embedding (RGCNModel_init example_ini 4 1 2 2 1)))%nat)
    as Hlen by (simpl; lia).
  split; [exact Hlen|]. split; [exact Hnd|].
  destruct (find_similar_sorted_ties_by_index cosine_rational
              (RGCNModel_init example_ini 4 1 2 2 1) ["A"; "B"; "C"; "D"] "A" 10 Hlen)
    as (r & Hr & Hsorted & Hties).
  exists r. split; [exact Hr|]. split.
  - assert (find_similar_entities cosine_rational
              (indexed_service (RGCNModel_init example_ini 4 1 2 2 1)
                 ["A"; "B"; "C"; "D"]) "A" 10
            = Ok [{| entity_id := "B"; score := 24 # 25; label := "Entity" |};
                  {| entity_id := "C"; score := 4 # 5; label := "Entity" |};
                  {| entity_id := "D"; score := 4 # 5; label := "Entity" |}])
      as Hval by reflexivity.
    rewrite Hr in Hval. by injection Hval.
  - split; [exact Hsorted|exact (Hties Hnd)].
Defined.

(** The tie-break of C2 as stated fails where two nodes carry the
    identifier B: B and C tie, B comes first, and B has the higher node
    index.  The scores are in order all the same. *)
Lemma duplicate_identifiers_tie_order :
  service_of (RGCNModel_init example_ini 4 1 2 2 1) duplicate_state = duplicate_service
  ∧ find_similar_entities cosine_rational duplicate_service "A" 10
    = Ok [{| entity_id := "B"; score := 4 # 5; label := "Entity" |};
          {| entity_id := "C"; score := 4 # 5; label := "Entity" |}]
  ∧ PyDict.get (svc_entity_to_node duplicate_service) "B" = Some 3
  ∧ PyDict.get (svc_entity_to_node duplicate_service) "C" = Some 2.
Proof. repeat split; reflexivity. Qed.

(** ** The convolution stack *)

Lemma tabulate_shape (r c : nat) (f : nat → nat → Q) : has_shape (tabulate r c f) r c.
Proof.
  unfold has_shape, tabulate. rewrite length_map, length_seq. split; [done|].
  apply Forall_forall. intros v Hv.
  apply list_elem_of_fmap in Hv as (i & -> & _). by rewrite length_map, length_seq.
Qed.

Lemma transform_length (h : vec) (M : matrix) (out : nat) :
  length (transform h M out) = out.
Proof. unfold transform. by rewrite length_map, length_seq. Qed.

Lemma foldl_vadd_length (v : vec) (ms : list vec) (out : nat) :
  length v = out → Forall (λ w, length w = out) ms →
  length (foldl vadd v ms) = out.
Proof.
  intros Hv Hms. revert v Hv. induction Hms as [|w ms Hw _ IH]; intros v Hv; simpl.
  - done.
  - apply IH. unfold vadd. rewrite length_zip_with. lia.
Qed.

Lemma conv_forward_shape (c : RGCNConv) (x : matrix)
    (ei : edge_index_t) (et : edge_type_t) :
  has_shape (conv_forward c x ei et) (length x) (out_channels c).
Proof.
  unfold has_shape, conv_forward. rewrite length_imap. split; [done|].
  apply Forall_forall. intros v Hv.
  apply elem_of_lookup_imap in Hv as (i & hv & -> & _).
  apply foldl_vadd_length; [apply transform_length|].
  apply Forall_forall. intros w Hw.
  apply list_elem_of_fmap in Hw as ([[u t] r] & -> & _).
  unfold message, vscale. by rewrite length_map, transform_length.
Qed.

Lemma relu_shape (x : matrix) (r c : nat) : has_shape x r c → has_shape (relu x) r c.
Proof.
  unfold has_shape, relu. intros [Hr Hc]. rewrite length_map. split; [done|].
  apply Forall_forall. intros v Hv. apply list_elem_of_fmap in Hv as (w & -> & Hw).
  rewrite length_map. rewrite Forall_forall in Hc. by apply Hc.
Qed.

(** The loop applies the rectifier after every layer but the last. *)
Lemma forward_layers_snoc (cs : list RGCNConv) (c : RGCNConv) (n i : nat)
    (x : matrix) (ei : edge_index_t) (et : edge_type_t) :
  i + length (cs ++ [c]) = n →
  forward_layers (cs ++ [c]) n i x ei et
  = conv_forward c
      (foldl (λ y c', relu (conv_forward c' y ei et)) x cs) ei et.
Proof.
  revert i x. induction cs as [|c0 cs IH]; intros i x Hn; simpl in *.
  - rewrite decide_False by lia. done.
  - rewrite length_app in Hn. simpl in Hn.
    rewrite decide_True by lia. apply IH. rewrite length_app. simpl. lia.
Qed.

Lemma foldl_relu_conv_length (cs : list RGCNConv) (x : matrix)
    (ei : edge_index_t) (et : edge_type_t) :
  length (foldl (λ y c', relu (conv_forward c' y ei et)) x cs) = length x.
Proof.
  revert x. induction cs as [|c cs IH]; intros x; simpl; [done|].
  rewrite IH. unfold relu. rewrite length_map.
  apply (conv_forward_shape c x ei et).
Qed.

(** On any model whose last layer is [c] the forward pass gives one row
    per row of the embedding table, of [out_channels c] coordinates. *)
Lemma forward_shape (m : RGCNModel) (cs : list RGCNConv) (c : RGCNConv)
    (ei : edge_index_t) (et : edge_type_t) :
  convs m = cs ++ [c] →
  forward m ei et
    = conv_forward c
        (foldl (λ y c', relu (conv_forward c' y ei et)) (node_embedding m) cs) ei et
  ∧ has_shape (forward m ei et) (length (node_embedding m)) (out_channels c).
Proof.
  intros Hcs. unfold forward. rewrite Hcs.
  rewrite forward_layers_snoc by done. split; [done|].
  rewrite <- (foldl_relu_conv_length cs (node_embedding m) ei et).
  apply conv_forward_shape.
Qed.

(** The schedule, layer by layer: layer [i], counted from zero, reads
    [embedding_dim] coordinates if it is the first and [hidden_dim]
    otherwise, and writes [embedding_dim] coordinates if it is the last and
    [hidden_dim] otherwise. *)
Lemma conv_dims_schedule (emb hid : nat) (L : Z) :
  (1 ≤ L)%Z →
  length (conv_dims emb hid L) = Z.to_nat L
  ∧ ∀ i d, conv_dims emb hid L !! i = Some d →
      d = (if decide (i = 0) then emb else hid,
           if decide (i = Z.to_nat L - 1) then emb else hid).
Proof.
  intros HL. unfold conv_dims. destruct (L =? 1)%Z eqn:E.
  - apply Z.eqb_eq in E. subst L. split; [done|].
    intros [|i] d Hd; simpl in *; [|done]. by injection Hd as <-.
  - apply Z.eqb_neq in E. simpl. rewrite length_app, length_replicate. simpl.
    split; [lia|]. intros [|i] d Hd; simpl in *.
    + injection Hd as <-. destruct (decide (0 = Z.to_nat L - 1)); [lia|done].
    + destruct (decide (i < Z.to_nat (L - 2))) as [Hlt|Hge].
      * rewrite lookup_app_l in Hd by (rewrite length_replicate; lia).
        apply lookup_replicate in Hd as [-> _].
        destruct (decide (S i = Z.to_nat L - 1)); [lia|done].
      * rewrite lookup_app_r in Hd by (rewrite length_replicate; lia).
        rewrite length_replicate in Hd.
        destruct (i - Z.to_nat (L - 2)) as [|k] eqn:Ek; simpl in Hd; [|done].
        injection Hd as <-.
        destruct (decide (S i = Z.to_nat L - 1)); [done|lia].
Qed.

Lemma RGCNModel_init_convs (ini : initializer) (n R emb hid : nat) (L : Z) :
  map (λ c, (in_channels c, out_channels c))
    (convs (RGCNModel_init ini n R emb hid L))
  = conv_dims emb hid L.
Proof.
  simpl. generalize (conv_dims emb hid L) as ds. intros ds.
  assert (∀ g : nat → nat * nat → RGCNConv,
            (∀ l d, (in_channels (g l d), out_channels (g l d)) = d) →
            map (λ c, (in_channels c, out_channels c)) (imap g ds) = ds) as H.
  { induction ds as [|d ds IH]; intros g Hg; [done|].
    rewrite imap_cons. simpl. rewrite Hg. f_equal. apply IH.
    intros l d'. apply Hg. }
  apply H. intros l [i o]. done.
Qed.

(** What [F.relu] does to a tensor: a coordinate that is not negative is
    kept, a negative one becomes zero. *)
Lemma relu_rectifies (x : matrix) :
  Forall2 (Forall2 (λ a b : Q, ((0 <= a)%Q → b = a) ∧ ((a < 0)%Q → b = 0%Q)))
    x (relu x).
Proof.
  unfold relu. apply Forall2_fmap_r, Forall_Forall2_diag, Forall_forall.
  intros v _. apply Forall2_fmap_r, Forall_Forall2_diag, Forall_forall.
  intros a _. simpl. destruct (Qle_bool 0 a) eqn:E.
  - split; [reflexivity|]. intros Hlt. apply Qle_bool_iff in E.
    destruct (Qlt_not_le _ _ Hlt E).
  - split; [|reflexivity]. intros Hle. apply Qle_bool_iff in Hle. congruence.
Qed.

(** C7: for a layer count [L ≥ 1] the constructor builds [L] layers that
    follow the schedule (the first reads [embedding_dim] coordinates, the
    last writes [embedding_dim], every other side is [hidden_dim]); the
    forward pass applies [relu] to the output of every layer except the
    last, where [relu] is the rectifier (it keeps the coordinates that are
    not negative and replaces the negative ones by zero), and its output
    has shape [[num_nodes, embedding_dim]]. *)
Theorem convolution_stack_schedule (ini : initializer) (n R emb hid : nat) (L : Z)
    (ei : edge_index_t) (et : edge_type_t) :
  (1 ≤ L)%Z →
  let m := RGCNModel_init ini n R emb hid L in
  length (convs m) = Z.to_nat L
  ∧ (∀ i c, convs m !! i = Some c →
       in_channels c = (if decide (i = 0) then emb else hid)
       ∧ out_channels c = (if decide (i = Z.to_nat L - 1) then emb else hid))
  ∧ (∃ cs c, convs m = cs ++ [c]
       ∧ forward m ei et
         = conv_forward c
             (foldl (λ y c', relu (conv_forward c' y ei et)) (node_embedding m) cs)
             ei et)
  ∧ (∀ x : matrix,
       Forall2 (Forall2 (λ a b : Q, ((0 <= a)%Q → b = a) ∧ ((a < 0)%Q → b = 0%Q)))
         x (relu x))
  ∧ has_shape (forward m ei et) n emb.
Proof.
  intros HL m.
  pose proof (RGCNModel_init_convs ini n R emb hid L) as Hdims. fold m in Hdims.
  destruct (conv_dims_schedule emb hid L HL) as [Hlen Hsched].
  assert (length (convs m) = Z.to_nat L) as Hlen'.
  { by rewrite <- Hlen, <- Hdims, length_map. }
  assert (∀ i c, convs m !! i = Some c →
            in_channels c = (if decide (i = 0) then emb else hid)
            ∧ out_channels c = (if decide (i = Z.to_nat L - 1) then emb else hid))
    as Hlayers.
  { intros i c Hc.
    assert (conv_dims emb hid L !! i = Some (in_channels c, out_channels c)) as Hd.
    { rewrite <- Hdims, list_lookup_fmap, Hc. done. }
    apply Hsched in Hd. by injection Hd as -> ->. }
  split; [done|]. split; [done|].
  assert (∃ cs c, convs m = cs ++ [c]) as (cs & c & Hcs).
  { revert Hlen'. generalize (convs m). intros l Hl.
    induction l using rev_ind; [simpl in Hl; lia | eauto]. }
  destruct (forward_shape m cs c ei et Hcs) as [Hfwd Hshape].
  split; [eauto|]. split; [apply relu_rectifies|].
  assert (length (node_embedding m) = n) as Hrows.
  { apply (tabulate_shape n emb (init_embedding ini)). }
  assert (out_channels c = emb) as Hout.
  { destruct (Hlayers (length cs) c) as [_ ->].
    - rewrite Hcs, lookup_app_r by lia. by rewrite Nat.sub_diag.
    - rewrite Hcs, length_app in Hlen'. simpl in Hlen'.
      destruct (decide (length cs = Z.to_nat L - 1)); [done|lia]. }
  by rewrite Hrows, Hout in Hshape.
Qed.

Lemma convolution_stack_schedule_witness :
  (1 ≤ 3)%Z
  ∧ length (convs (RGCNModel_init example_ini 3 1 2 4 3)) = 3
  ∧ (∀ i c, convs (RGCNModel_init example_ini 3 1 2 4 3) !! i = Some c →
       in_channels c = (if decide (i = 0) then 2 else 4)
       ∧ out_channels c = (if decide (i = 2) then 2 else 4))
  ∧ (∃ cs c, convs (RGCNModel_init example_ini 3 1 2 4 3) = cs ++ [c]
       ∧ forward (RGCNModel_init example_ini 3 1 2 4 3) ([0; 1], [1; 2]) [0; 0]
         = conv_forward c
             (foldl (λ y c', relu (conv_forward c' y ([0; 1], [1; 2]) [0; 0]))
                (node_embedding (RGCNModel_init example_ini 3 1 2 4 3)) cs)
             ([0; 1], [1; 2]) [0; 0])
  ∧ (∀ x : matrix,
       Forall2 (Forall2 (λ a b : Q, ((0 <= a)%Q → b = a) ∧ ((a < 0)%Q → b = 0%Q)))
         x (relu x))
  ∧ has_shape
      (forward (RGCNModel_init example_ini 3 1 2 4 3) ([0; 1], [1; 2]) [0; 0]) 3 2.
Proof.
  assert (1 ≤ 3)%Z as HL by lia.
  split; [exact HL|].
  exact (convolution_stack_schedule example_ini 3 1 2 4 3 ([0; 1], [1; 2]) [0; 0] HL).
Defined.

(** The rectifier on a tensor with negative coordinates. *)
Example relu_negative_coordinates :
  relu [[-1; 2]; [0; -3 # 2]]%Q = [[0; 2]; [0; 0]]%Q.
Proof. reflexivity. Qed.

(** The schedule of the default configuration and of a single layer. *)
Example conv_dims_default : conv_dims 64 128 2 = [(64, 128); (128, 64)].
Proof. reflexivity. Qed.

Example conv_dims_single : conv_dims 64 128 1 = [(64, 64)].
Proof. reflexivity. Qed.

Example conv_dims_four :
  conv_dims 64 128 4 = [(64, 128); (128, 128); (128, 128); (128, 64)].
Proof. reflexivity. Qed.

(** ** One training epoch *)

Lemma gather_total (x : matrix) (idx : list nat) :
  Forall (λ i, i < length x) idx →
  gather x idx = Ok (map (λ i, default [] (x !! i)) idx).
Proof.
  unfold gather. induction 1 as [|i idx Hi _ IH]; simpl; [done|].
  rewrite IH. apply lookup_lt_is_Some_2 in Hi as [v Hv].
  unfold row. by rewrite Hv.
Qed.

Lemma score_edges_total (embeddings : matrix) (ei : edge_index_t) :
  Forall (λ i, i < length embeddings) ei.1 →
  Forall (λ i, i < length embeddings) ei.2 →
  score_edges embeddings ei = Ok (pair_scores embeddings ei.1 ei.2).
Proof.
  intros H1 H2. unfold score_edges, pair_scores.
  rewrite !gather_total by done. simpl. f_equal.
  by rewrite zip_with_fmap_l, zip_with_fmap_r.
Qed.

Lemma forward_layers_length (cs : list RGCNConv) (n i : nat) (x : matrix)
    (ei : edge_index_t) (et : edge_type_t) :
  length (forward_layers cs n i x ei et) = length x.
Proof.
  revert i x. induction cs as [|c cs IH]; intros i x; simpl; [done|].
  rewrite IH. case_decide.
  - unfold relu. rewrite length_map. apply (conv_forward_shape c x ei et).
  - apply (conv_forward_shape c x ei et).
Qed.

Lemma forward_length (m : RGCNModel) (ei : edge_index_t) (et : edge_type_t) :
  length (forward m ei et) = length (node_embedding m).
Proof. apply forward_layers_length. Qed.




Section training.
Context {generator optimizer_state : Type}.
Variable randint : nat → nat → nat → generator → list nat * generator.
Variable binary_cross_entropy_with_logits : list Q → list Q → Q.
Variable backward_step :
  RGCNModel → optimizer_state → edge_index_t → edge_type_t → edge_index_t →
  RGCNModel * optimizer_state.



End training.

Lemma counter_randint_contract : randint_contract counter_randint.
Proof.
  intros low high n g Hlt. unfold counter_randint. simpl.
  rewrite length_map, length_seq. split; [done|].
  apply Forall_forall. intros i Hi.
  apply list_elem_of_fmap in Hi as (j & -> & _).
  pose proof (Nat.mod_upper_bound (g + j) (high - low)). lia.
Qed.





(** With the tape [1; 1] the pair drawn is the node 1 with itself, and it
    is scored like any other. *)
Example self_pair_drawn :
  (sample_negative_edges tape_randint two_node_model one_edge_trainer [1; 1]).1
  = ([1], [1]).
Proof. reflexivity. Qed.

(** The pairs the counting sampler draws for the example: the true edge
    (0, 1) and the self-pair (2, 2) are among them, and both are scored. *)
Example negative_pairs_unfiltered :
  (sample_negative_edges counter_randint example_model example_trainer 0).1
  = ([0; 1; 2; 0], [1; 2; 0; 1]).
Proof. reflexivity. Qed.

(** ** The cut at [top_k] *)

(** On a well-formed service the answers for all [top_k] are slices of one
    ranked list of candidates. *)
Lemma find_similar_slices (cosine_similarity : vec → vec → Q)
    (svc : EmbeddingService) (q : string) :
  service_wf svc →
  ∃ ranked, ∀ top_k,
    find_similar_entities cosine_similarity svc q top_k = Ok (slice_to ranked top_k).
Proof.
  intros Hwf. destruct (PyDict.get (svc_entity_to_node svc) q) as [i|] eqn:Hq.
  - destruct (find_similar_entities_mapped cosine_similarity svc q 0 i Hwf Hq)
      as (v & d & Hv & Hd & _).
    exists (sort_desc score (similarity_loop cosine_similarity q v d)). intros k.
    destruct (find_similar_entities_mapped cosine_similarity svc q k i Hwf Hq)
      as (v' & d' & Hv' & Hd' & ->).
    congruence.
  - exists []. intros k. rewrite find_similar_entities_unmapped by done.
    unfold slice_to. destruct (0 <=? k)%Z; by rewrite take_nil.
Qed.

(** [top_k = 0] gives the empty list, a [top_k] of at least the number of
    candidates gives them all, a [top_k] between gives [top_k] entries, and a
    negative [top_k] drops that many entries from the end. *)
Lemma find_similar_top_k (cosine_similarity : vec → vec → Q)
    (svc : EmbeddingService) (q : string) :
  service_wf svc →
  ∃ ranked,
    find_similar_entities cosine_similarity svc q 0 = Ok []
    ∧ (∀ top_k, (Z.of_nat (length ranked) <= top_k)%Z →
         find_similar_entities cosine_similarity svc q top_k = Ok ranked)
    ∧ (∀ top_k, (0 <= top_k)%Z →
         find_similar_entities cosine_similarity svc q top_k
         = Ok (take (Z.to_nat top_k) ranked))
    ∧ (∀ top_k, (top_k < 0)%Z →
         find_similar_entities cosine_similarity svc q top_k
         = Ok (take (length ranked - Z.to_nat (- top_k)) ranked)).
Proof.
  intros Hwf. destruct (find_similar_slices cosine_similarity svc q Hwf) as [ranked H].
  exists ranked. split; [by rewrite H|]. split; [|split].
  - intros k Hk. by rewrite H, slice_to_all.
  - intros k Hk. rewrite H. unfold slice_to. by rewrite (proj2 (Z.leb_le 0 k)).
  - intros k Hk. rewrite H. unfold slice_to. by rewrite (proj2 (Z.leb_gt 0 k)).
Qed.

(** [RGCNModel.get_embeddings] reads the same table. *)
Example model_get_embeddings_table (m : RGCNModel) :
  model_get_embeddings m None = Ok (node_embedding m).
Proof. reflexivity. Qed.

(** ** The service the handlers build after [startup] *)

Lemma load_state_dict_rows (m m' : RGCNModel) (sd : state_dict) :
  load_state_dict m sd = Some m' →
  length (node_embedding m') = length (node_embedding m).
Proof.
  unfold load_state_dict. case_decide as H; [|done]. intros [= <-]. simpl.
  destruct H as [H _]. apply (f_equal length) in H. unfold shape in H.
  by rewrite !length_map in H.
Qed.

(** For a graph with entities [startup] constructs the model, whose table
    has one row per entity, and the service over the globals is well
    formed, whatever the identifiers. *)
Lemma startup_service_wf {optimizer_state : Type} (gd : graph_data) (cfg : config)
    (ini : initializer) (o : optimizer_state) (snapshot : option state_dict) :
  entity_ids gd ≠ [] →
  ∃ m, model (startup true gd cfg ini o snapshot initial_state) = Some m
     ∧ length (node_embedding m) = length (entity_ids gd)
     ∧ service_of m (startup true gd cfg ini o snapshot initial_state)
       = indexed_service m (entity_ids gd)
     ∧ service_wf (indexed_service m (entity_ids gd)).
Proof.
  intros Hne. unfold startup. simpl.
  rewrite decide_False by (by intros ?%nil_length_inv).
  destruct (build_mappings (enumerate (entity_ids gd)) [] []) as [n2e e2n] eqn:Hb.
  simpl. eexists. split; [done|].
  match goal with |- length (node_embedding ?m) = _ ∧ _ =>
    assert (length (node_embedding m) = length (entity_ids gd)) as Hrows end.
  { destruct snapshot as [sd|]; simpl.
    - destruct (load_state_dict _ sd) as [m'|] eqn:Hload; simpl.
      + rewrite (load_state_dict_rows _ _ _ Hload). simpl.
        apply (tabulate_shape (length (entity_ids gd)) _ (init_embedding ini)).
      + apply (tabulate_shape (length (entity_ids gd)) _ (init_embedding ini)).
    - apply (tabulate_shape (length (entity_ids gd)) _ (init_embedding ini)). }
  split; [done|]. split.
  - unfold service_of, indexed_service. simpl. by rewrite Hb.
  - unfold service_wf, indexed_service. simpl. rewrite Hrows.
    destruct (build_mappings_Forall
      (λ kv, kv.1 < length (entity_ids gd)) (λ kv, kv.2 < length (entity_ids gd))
      (enumerate (entity_ids gd)) [] []) as [H1 H2]; [constructor..| |by split].
    apply Forall_forall. intros [i e] Hin.
    apply elem_of_enumerate_from in Hin as [_ Hin]. apply lookup_lt_Some in Hin.
    simpl. lia.
Qed.

(** * Further properties of the sources *)

(** ** [get_graph_data] *)

Lemma lookup_enumerate_from {A : Type} (s : nat) (l : list A) (i : nat) :
  enumerate_from s l !! i = (λ x, (s + i, x)) <$> l !! i.
Proof.
  revert s i. induction l as [|x l IH]; intros s [|i]; simpl; try done.
  - by rewrite Nat.add_0_r.
  - rewrite IH. by replace (S s + i) with (s + S i) by lia.
Qed.

Lemma node_loop_spec (items : list (nat * node_record))
    (node_map : pydict Z nat) (ids labels : list string) :
  node_loop items (node_map, ids, labels)
  = (foldl (λ d kv, PyDict.set d kv.1 kv.2) node_map
       (map (λ ir : nat * node_record, (rec_neo4j_id ir.2, ir.1)) items),
     ids ++ map (λ ir : nat * node_record,
                   str_or (rec_entity_id ir.2) ("node_" +:+ pretty ir.1)) items,
     labels ++ map (λ ir : nat * node_record, str_or (rec_label ir.2) "Entity") items).
Proof.
  revert node_map ids labels.
  induction items as [|[i r] items IH]; intros node_map ids labels; simpl.
  - by rewrite !app_nil_r.
  - rewrite IH. by rewrite <- !app_assoc.
Qed.

Lemma str_or_nonempty (value : option string) (fallback : string) :
  fallback ≠ "" → str_or value fallback ≠ "".
Proof.
  intros Hf. unfold str_or. destruct value as [s|]; [|done]. by case_decide.
Qed.

Lemma str_or_keeps (s fallback : string) : s ≠ "" → str_or (Some s) fallback = s.
Proof. intros Hs. unfold str_or. by rewrite decide_False. Qed.

(** What the node loop hands on: the three results have one entry per row,
    the map sends a Neo4j id of the rows, and no other, to a loop index, and
    row [i] gets its own identifier or, failing that, [node_i]. *)
Lemma get_graph_data_nodes_spec (nodes_result : list node_record) :
  ∃ node_map ids labels,
    get_graph_data_nodes nodes_result = (node_map, ids, labels)
    ∧ length ids = length nodes_result
    ∧ length labels = length nodes_result
    ∧ Forall (λ kv, kv.2 < length nodes_result) node_map
    ∧ (∀ k, k ∈ node_map.*1 ↔ k ∈ map rec_neo4j_id nodes_result)
    ∧ (∀ i r, nodes_result !! i = Some r →
         ids !! i = Some (str_or (rec_entity_id r) ("node_" +:+ pretty i))
         ∧ labels !! i = Some (str_or (rec_label r) "Entity")).
Proof.
  unfold get_graph_data_nodes. rewrite node_loop_spec. simpl.
  eexists _, _, _. split; [done|].
  rewrite !length_map. unfold enumerate. rewrite !enumerate_from_length.
  split; [done|]. split; [done|]. split; [|split].
  - apply foldl_set_Forall; [constructor|].
    apply Forall_forall. intros [k i] Hin.
    apply list_elem_of_fmap in Hin as ([j r] & [= -> ->] & Hin).
    apply elem_of_enumerate_from in Hin as [_ Hin]. apply lookup_lt_Some in Hin.
    simpl. lia.
  - intros k. rewrite foldl_set_keys. simpl. rewrite elem_of_nil.
    rewrite <- list_fmap_compose.
    replace (map rec_neo4j_id nodes_result)
      with (map rec_neo4j_id (enumerate_from 0 nodes_result).*2)
      by (by rewrite enumerate_from_snd).
    rewrite <- list_fmap_compose. tauto.
  - intros i r Hr.
    assert (enumerate_from 0 nodes_result !! i = Some (i, r)) as Hi
      by (by rewrite lookup_enumerate_from, Hr).
    rewrite !list_lookup_fmap, Hi. done.
Qed.

Lemma subscript_get {K V : Type} `{EqDecision K} (d : list (K * V)) (k : K) (v : V) :
  PyDict.get d k = Some v → subscript d k = Ok v.
Proof. intros H. unfold subscript. by rewrite H. Qed.

Lemma contains_false {K V : Type} `{EqDecision K} (d : list (K * V)) (k : K) :
  PyDict.contains d k = false ↔ k ∉ d.*1.
Proof.
  rewrite <- contains_true. destruct (PyDict.contains d k); split; try done.
Qed.

(** The step of the edge loop on the relation map: the name is mapped
    afterwards, to an index of the map, and the map stays dense. *)
Lemma rel_map_step (rel_map : pydict string nat) (rel_type : string) :
  rel_map.*2 = seq 0 (length rel_map) → NoDup rel_map.*1 →
  ∃ r, PyDict.get
         (if negb (PyDict.contains rel_map rel_type)
          then PyDict.set rel_map rel_type (length rel_map) else rel_map) rel_type
       = Some r
     ∧ r < length (if negb (PyDict.contains rel_map rel_type)
                   then PyDict.set rel_map rel_type (length rel_map) else rel_map)
     ∧ length rel_map
       <= length (if negb (PyDict.contains rel_map rel_type)
                  then PyDict.set rel_map rel_type (length rel_map) else rel_map)
     ∧ (if negb (PyDict.contains rel_map rel_type)
        then PyDict.set rel_map rel_type (length rel_map) else rel_map).*2
       = seq 0 (length (if negb (PyDict.contains rel_map rel_type)
                        then PyDict.set rel_map rel_type (length rel_map)
                        else rel_map))
     ∧ NoDup (if negb (PyDict.contains rel_map rel_type)
              then PyDict.set rel_map rel_type (length rel_map) else rel_map).*1.
Proof.
  intros Hdense Hnd. destruct (PyDict.contains rel_map rel_type) eqn:E; simpl.
  - apply contains_true in E.
    destruct (PyDict.get rel_map rel_type) as [r|] eqn:Hr;
      [|by apply get_None_keys in Hr].
    exists r. split; [done|]. split; [|split; [lia|done]].
    apply get_Some_elem_of in Hr.
    assert (r ∈ rel_map.*2) as Hin
      by (apply list_elem_of_fmap; by exists (rel_type, r)).
    rewrite Hdense, elem_of_seq in Hin. lia.
  - apply contains_false in E. rewrite set_fresh by done.
    exists (length rel_map). rewrite length_app. simpl. split; [|split; [lia|split;[lia|]]].
    + rewrite <- (set_fresh rel_map rel_type (length rel_map)) by done.
      rewrite get_set. by rewrite decide_True.
    + split.
      * rewrite fmap_app, Hdense. simpl.
        replace (length rel_map + 1) with (S (length rel_map)) by lia.
        by rewrite seq_S.
      * rewrite <- (set_fresh rel_map rel_type (length rel_map)) by done.
        by apply NoDup_keys_set.
Qed.

Lemma edge_loop_spec (node_map : pydict Z nat) (n : nat)
    (records : list edge_record)
    (acc : list (nat * nat) * list nat * pydict string nat) :
  Forall (λ kv, kv.2 < n) node_map → edge_acc_wf n acc →
  ∃ acc', edge_loop node_map records acc = Ok acc'
        ∧ edge_acc_wf n acc'
        ∧ length acc'.1.1
          = length acc.1.1
            + length (filter (λ r, rec_source r ∈ node_map.*1
                                   ∧ rec_target r ∈ node_map.*1) records).
Proof.
  intros Hmap. revert acc.
  induction records as [|record records IH]; intros [[edge_list rel_types] rel_map] Hwf.
  - exists (edge_list, rel_types, rel_map). simpl. split; [done|]. split; [done|lia].
  - simpl. rewrite filter_cons.
    destruct (PyDict.contains node_map (rec_source record)) eqn:Es; simpl.
    2:{ apply contains_false in Es. rewrite decide_False by tauto. by apply IH. }
    destruct (PyDict.contains node_map (rec_target record)) eqn:Et; simpl.
    2:{ apply contains_false in Et. rewrite decide_False by tauto. by apply IH. }
    apply contains_true in Es as Hs, Et as Ht. rewrite decide_True by done.
    destruct (PyDict.get node_map (rec_source record)) as [s|] eqn:Hgs;
      [|by apply get_None_keys in Hgs].
    destruct (PyDict.get node_map (rec_target record)) as [t|] eqn:Hgt;
      [|by apply get_None_keys in Hgt].
    rewrite (subscript_get _ _ _ Hgs), (subscript_get _ _ _ Hgt). simpl.
    destruct Hwf as (He & Hl & Hr & Hdense & Hnd). simpl in *.
    destruct (rel_map_step rel_map
                (str_or (rec_rel_type record) "RELATED_TO") Hdense Hnd)
      as (r & Hget & Hlt & Hle & Hdense' & Hnd').
    rewrite (subscript_get _ _ _ Hget). simpl.
    edestruct IH as (acc' & -> & Hwf' & Hlen').
    2:{ exists acc'. split; [done|]. split; [done|].
        rewrite Hlen'. simpl. rewrite length_app. simpl. lia. }
    unfold edge_acc_wf. simpl. split; [|split; [|split; [|done]]].
    + apply Forall_app. split; [done|]. constructor; [|constructor]. simpl.
      apply get_Some_elem_of in Hgs, Hgt. rewrite Forall_forall in Hmap.
      split; [apply (Hmap _ Hgs) | apply (Hmap _ Hgt)].
    + rewrite !length_app. simpl. lia.
    + apply Forall_app. split; [|by repeat constructor].
      eapply Forall_impl; [exact Hr|]. simpl. lia.
Qed.

(** Everything [get_graph_data] promises [startup], in one statement. *)
Lemma get_graph_data_spec (nodes_result : list node_record)
    (edges_result : list edge_record) :
  ∃ node_map labels gd,
    get_graph_data nodes_result edges_result = Ok (node_map, labels, gd)
    ∧ length (entity_ids gd) = length nodes_result
    ∧ length labels = length nodes_result
    ∧ graph_wf gd
    ∧ (rel_type_map gd).*2 = seq 0 (length (rel_type_map gd))
    ∧ NoDup (rel_type_map gd).*1
    ∧ (nodes_result ≠ [] →
       length (edge_types gd)
       = length (filter (λ r, rec_source r ∈ map rec_neo4j_id nodes_result
                              ∧ rec_target r ∈ map rec_neo4j_id nodes_result)
                   edges_result))
    ∧ (∀ i r, nodes_result !! i = Some r →
         entity_ids gd !! i
         = Some (str_or (rec_entity_id r) ("node_" +:+ pretty i))).
Proof.
  unfold get_graph_data.
  destruct (get_graph_data_nodes_spec nodes_result)
    as (node_map & ids & labels & -> & Hids & Hlabels & Hmap & Hkeys & Hrows).
  case_decide as Hlen.
  - assert (nodes_result = []) as -> by (apply nil_length_inv; lia).
    eexists _, _, _. split; [done|]. simpl.
    repeat split; try done; try constructor.
  - destruct (edge_loop_spec node_map (length nodes_result) edges_result ([], [], []))
      as ([[edge_list rel_types] rel_map] & -> & Hwf & Hcount); [done| |].
    { unfold edge_acc_wf. simpl. repeat split; constructor. }
    destruct Hwf as (He & Hl & Hr & Hdense & Hnd). simpl in *.
    eexists _, _, _. split; [done|]. simpl. rewrite Hids.
    split; [done|]. split; [done|]. split; [|split; [done|split; [done|split]]].
    + unfold graph_wf. simpl. rewrite !length_fmap, Hids.
      split; [done|]. split; [done|]. split; [|split; [|done]].
      * apply Forall_fmap. eapply Forall_impl; [exact He|]. by intros [??] [??].
      * apply Forall_fmap. eapply Forall_impl; [exact He|]. by intros [??] [??].
    + intros _. rewrite Hl, Hcount. f_equal. apply list_filter_iff.
      intros r. by rewrite !Hkeys.
    + intros i r Hi. by apply Hrows.
Qed.

(** X1: [get_graph_data] never raises, and what it returns fits together:
    one identifier and one label per node row, one type per edge, every end
    of an edge a node index and every edge type an index of
    [rel_type_map]. *)
Theorem get_graph_data_well_formed (nodes_result : list node_record)
    (edges_result : list edge_record) :
  ∃ node_map labels gd,
    get_graph_data nodes_result edges_result = Ok (node_map, labels, gd)
    ∧ length (entity_ids gd) = length nodes_result
    ∧ length labels = length nodes_result
    ∧ graph_wf gd.
Proof.
  destruct (get_graph_data_spec nodes_result edges_result)
    as (node_map & labels & gd & H & Hids & Hlabels & Hwf & _).
  eauto 10.
Qed.

(** X2: the relation indices are dense and in first-seen order: the values
    of [rel_type_map], in insertion order, are 0, 1, 2, ..., and no name
    has two entries. *)
Theorem relation_indices_dense (nodes_result : list node_record)
    (edges_result : list edge_record) :
  ∃ node_map labels gd,
    get_graph_data nodes_result edges_result = Ok (node_map, labels, gd)
    ∧ (rel_type_map gd).*2 = seq 0 (length (rel_type_map gd))
    ∧ NoDup (rel_type_map gd).*1.
Proof.
  destruct (get_graph_data_spec nodes_result edges_result)
    as (node_map & labels & gd & H & _ & _ & _ & Hdense & Hnd & _).
  eauto 10.
Qed.

(** A row of the edge query with an end outside the node map leaves no
    trace: the loop gives the same result without such rows. *)
Lemma edge_loop_filter (node_map : pydict Z nat) (records : list edge_record) :
  ∀ acc : list (nat * nat) * list nat * pydict string nat,
  edge_loop node_map records acc
  = edge_loop node_map
      (filter (λ r, rec_source r ∈ node_map.*1 ∧ rec_target r ∈ node_map.*1) records)
      acc.
Proof.
  induction records as [|record records IH]; intros [[edge_list rel_types] rel_map];
    [done|].
  rewrite filter_cons.
  destruct (PyDict.contains node_map (rec_source record)) eqn:Es.
  2:{ simpl. rewrite Es. simpl. apply contains_false in Es.
      rewrite decide_False by tauto. apply IH. }
  destruct (PyDict.contains node_map (rec_target record)) eqn:Et.
  2:{ simpl. rewrite Es, Et. simpl. apply contains_false in Et.
      rewrite decide_False by tauto. apply IH. }
  apply contains_true in Es as Hs, Et as Ht. rewrite decide_True by done.
  simpl. rewrite Es, Et. simpl.
  destruct (subscript node_map (rec_source record)) as [s|e]; [|done]. simpl.
  destruct (subscript node_map (rec_target record)) as [t|e]; [|done]. simpl.
  destruct (subscript _ (str_or (rec_rel_type record) "RELATED_TO")) as [r|e];
    [|done]. simpl.
  apply IH.
Qed.

(** X3: where the node query has rows, a row of the edge query with an end
    that is no node row is skipped entirely: [get_graph_data] returns what
    it returns without such rows (no edge, no type and no relation name
    comes from them), and every other row gives one edge. *)
Theorem edges_outside_nodes_skipped (nodes_result : list node_record)
    (edges_result : list edge_record) :
  nodes_result ≠ [] →
  ∃ node_map labels gd,
    get_graph_data nodes_result edges_result = Ok (node_map, labels, gd)
    ∧ get_graph_data nodes_result
        (filter (λ r, rec_source r ∈ map rec_neo4j_id nodes_result
                      ∧ rec_target r ∈ map rec_neo4j_id nodes_result)
           edges_result)
      = Ok (node_map, labels, gd)
    ∧ length (edge_types gd)
      = length (filter (λ r, rec_source r ∈ map rec_neo4j_id nodes_result
                             ∧ rec_target r ∈ map rec_neo4j_id nodes_result)
                  edges_result).
Proof.
  intros Hne. destruct (get_graph_data_spec nodes_result edges_result)
    as (node_map & labels & gd & H & _ & _ & _ & _ & _ & Hcount & _).
  exists node_map, labels, gd. split; [done|]. split; [|by apply Hcount].
  rewrite <- H. unfold get_graph_data.
  destruct (get_graph_data_nodes_spec nodes_result)
    as (nm & ids & lb & Hnodes & _ & _ & _ & Hkeys & _).
  rewrite Hnodes. case_decide; [done|].
  rewrite (list_filter_iff _
             (λ r, rec_source r ∈ nm.*1 ∧ rec_target r ∈ nm.*1))
    by (intros r; by rewrite !Hkeys).
  by rewrite <- edge_loop_filter.
Qed.

Lemma edges_outside_nodes_skipped_witness :
  duplicate_nodes ≠ []
  ∧ ∃ node_map labels gd,
      get_graph_data duplicate_nodes
        [ {| rec_source := 10; rec_target := 11; rec_rel_type := Some "LIKES" |};
          {| rec_source := 11; rec_target := 99; rec_rel_type := Some "IN" |};
          {| rec_source := 12; rec_target := 13; rec_rel_type := None |} ]
      = Ok (node_map, labels, gd)
    ∧ get_graph_data duplicate_nodes
        (filter (λ r, rec_source r ∈ map rec_neo4j_id duplicate_nodes
                      ∧ rec_target r ∈ map rec_neo4j_id duplicate_nodes)
           [ {| rec_source := 10; rec_target := 11; rec_rel_type := Some "LIKES" |};
             {| rec_source := 11; rec_target := 99; rec_rel_type := Some "IN" |};
             {| rec_source := 12; rec_target := 13; rec_rel_type := None |} ])
      = Ok (node_map, labels, gd)
    ∧ length (edge_types gd)
      = length (filter (λ r, rec_source r ∈ map rec_neo4j_id duplicate_nodes
                             ∧ rec_target r ∈ map rec_neo4j_id duplicate_nodes)
                  [ {| rec_source := 10; rec_target := 11;
                       rec_rel_type := Some "LIKES" |};
                    {| rec_source := 11; rec_target := 99;
                       rec_rel_type := Some "IN" |};
                    {| rec_source := 12; rec_target := 13;
                       rec_rel_type := None |} ]).
Proof.
  assert (duplicate_nodes ≠ []) as Hne by discriminate.
  split; [exact Hne|].
  exact (edges_outside_nodes_skipped duplicate_nodes _ Hne).
Defined.

(** The skipped row above names the relation IN, which the map does not
    get. *)
Example skipped_row_relation_not_registered :
  (x ← get_graph_data duplicate_nodes
         [ {| rec_source := 10; rec_target := 11; rec_rel_type := Some "LIKES" |};
           {| rec_source := 11; rec_target := 99; rec_rel_type := Some "IN" |};
           {| rec_source := 12; rec_target := 13; rec_rel_type := None |} ];
   Ok (edges x.2, edge_types x.2, rel_type_map x.2))
  = Ok (([0; 2], [1; 3]), [0; 1], [("LIKES", 0); ("RELATED_TO", 1)]).
Proof. reflexivity. Qed.

(** X4: no entity identifier is empty: a row keeps its own identifier when
    it has a non-empty one, and gets [node_i] otherwise. *)
Theorem entity_identifiers_nonempty (nodes_result : list node_record)
    (edges_result : list edge_record) :
  ∃ node_map labels gd,
    get_graph_data nodes_result edges_result = Ok (node_map, labels, gd)
    ∧ Forall (λ e, e ≠ "") (entity_ids gd)
    ∧ (∀ i r e, nodes_result !! i = Some r → rec_entity_id r = Some e → e ≠ "" →
         entity_ids gd !! i = Some e)
    ∧ (∀ i r, nodes_result !! i = Some r →
         rec_entity_id r = None ∨ rec_entity_id r = Some "" →
         entity_ids gd !! i = Some ("node_" +:+ pretty i)).
Proof.
  destruct (get_graph_data_spec nodes_result edges_result)
    as (node_map & labels & gd & H & Hids & _ & _ & _ & _ & _ & Hrows).
  exists node_map, labels, gd. split; [done|]. split; [|split].
  - apply Forall_forall. intros e He.
    apply list_elem_of_lookup_1 in He as [i Hi].
    assert (is_Some (nodes_result !! i)) as [r Hr].
    { apply lookup_lt_is_Some_2. apply lookup_lt_Some in Hi. lia. }
    rewrite (Hrows i r Hr) in Hi. injection Hi as <-.
    by apply str_or_nonempty.
  - intros i r e Hr He Hne. rewrite (Hrows i r Hr), He. by rewrite str_or_keeps.
  - intros i r Hr [He|He]; rewrite (Hrows i r Hr), He; done.
Qed.

(** ** The candidates of [find_similar_entities] *)

Lemma length_set {K V : Type} `{EqDecision K} (d : list (K * V)) (k : K) (v : V) :
  length (PyDict.set d k v) <= S (length d).
Proof.
  induction d as [|[k0 v0] d IH]; simpl; [lia|]. case_decide; simpl; lia.
Qed.

Lemma length_foldl_set {K V : Type} `{EqDecision K} (d kvs : list (K * V)) :
  length (foldl (λ d kv, PyDict.set d kv.1 kv.2) d kvs) <= length d + length kvs.
Proof.
  revert d. induction kvs as [|[k v] kvs IH]; intros d; simpl; [lia|].
  pose proof (IH (PyDict.set d k v)). pose proof (length_set d k v). lia.
Qed.

Lemma filter_keys {V : Type} (q : string) (d : list (string * V)) :
  (filter (λ kv, kv.1 ≠ q) d).*1 = filter (λ k, k ≠ q) (d.*1).
Proof.
  induction d as [|[k v] d IH]; [done|].
  rewrite fmap_cons, !filter_cons. simpl.
  case_decide; [rewrite fmap_cons|]; simpl; by f_equal.
Qed.

(** On a well-formed service the answers for all [top_k] are slices of one
    ranked list: it holds each entity other than the query once, and, for a
    query that is mapped, all of them. *)
Lemma find_similar_candidates (cosine_similarity : vec → vec → Q)
    (svc : EmbeddingService) (q : string) :
  service_wf svc →
  ∃ ranked,
    (∀ top_k, find_similar_entities cosine_similarity svc q top_k
              = Ok (slice_to ranked top_k))
    ∧ NoDup (entity_id <$> ranked)
    ∧ (∀ e, e ∈ entity_id <$> ranked
            ↔ is_Some (PyDict.get (svc_entity_to_node svc) q)
              ∧ e ∈ (svc_node_to_entity svc).*2 ∧ e ≠ q)
    ∧ length ranked <= length (svc_node_to_entity svc).
Proof.
  intros Hwf. destruct (PyDict.get (svc_entity_to_node svc) q) as [i|] eqn:Hq.
  - destruct (find_similar_entities_mapped cosine_similarity svc q 0 i Hwf Hq)
      as (v & d & Hv & Hd & _).
    destruct (get_embeddings_all_spec svc Hwf) as (d' & Hd' & Hnd & Hkeys & _).
    assert (d' = d) as -> by congruence.
    exists (sort_desc score (similarity_loop cosine_similarity q v d)).
    assert ((entity_id <$> sort_desc score (similarity_loop cosine_similarity q v d))
            ≡ₚ filter (λ k, k ≠ q) (d.*1)) as Hperm.
    { rewrite sort_desc_perm, similarity_loop_filter, <- filter_keys.
      by rewrite <- list_fmap_compose. }
    split; [|split; [|split]].
    + intros k.
      destruct (find_similar_entities_mapped cosine_similarity svc q k i Hwf Hq)
        as (v' & d'' & Hv' & Hd'' & ->). congruence.
    + rewrite Hperm. by apply NoDup_filter.
    + intros e. rewrite Hperm, list_elem_of_filter, Hkeys. split; [|tauto].
      intros [??]. split; [eauto|done].
    + rewrite sort_desc_length, similarity_loop_filter, length_map.
      etrans; [apply length_filter|].
      destruct Hwf as [_ Hwf].
      destruct (all_embeddings_loop_ok _ _ [] Hwf) as (vs & Hvs & Hloop).
      simpl in Hd. rewrite Hloop in Hd. injection Hd as <-.
      etrans; [apply length_foldl_set|]. simpl.
      rewrite length_zip, length_fmap. lia.
  - exists []. split; [|split; [constructor|split; [|simpl; lia]]].
    + intros k. rewrite find_similar_entities_unmapped by done.
      unfold slice_to. destruct (0 <=? k)%Z; by rewrite take_nil.
    + intros e. simpl. rewrite elem_of_nil. split; [done|]. by intros [[??] _].
Qed.

Lemma slice_to_sublist {A : Type} (l : list A) (k : Z) : slice_to l k `sublist_of` l.
Proof. destruct (slice_to_take l k) as [n ->]. apply sublist_take. Qed.

(** X5: on a well-formed service, whatever [top_k], the list
    [find_similar_entities] returns never holds the query entity, holds no
    entity twice, and holds only identifiers of [node_to_entity]. *)
Theorem find_similar_excludes_query (cosine_similarity : vec → vec → Q)
    (svc : EmbeddingService) (q : string) (top_k : Z) :
  service_wf svc →
  ∃ r, find_similar_entities cosine_similarity svc q top_k = Ok r
     ∧ Forall (λ x, entity_id x ≠ q) r
     ∧ NoDup (entity_id <$> r)
     ∧ Forall (λ x, entity_id x ∈ (svc_node_to_entity svc).*2) r.
Proof.
  intros Hwf.
  destruct (find_similar_candidates cosine_similarity svc q Hwf)
    as (ranked & Hr & Hnd & Hin & _).
  exists (slice_to ranked top_k). split; [done|].
  destruct (slice_to_take ranked top_k) as [n ->].
  assert (∀ x, x ∈ take n ranked → entity_id x ∈ entity_id <$> ranked) as Hsub.
  { intros x Hx. apply list_elem_of_fmap. exists x. split; [done|].
    by eapply elem_of_sublist; [|apply sublist_take]. }
  split; [|split].
  - apply Forall_forall. intros x Hx. by apply Hsub, Hin in Hx as (_ & _ & ?).
  - rewrite fmap_take. eapply sublist_NoDup; [done|apply sublist_take].
  - apply Forall_forall. intros x Hx. by apply Hsub, Hin in Hx as (_ & ? & _).
Qed.

Lemma find_similar_excludes_query_witness :
  service_wf duplicate_service
  ∧ ∃ r, find_similar_entities cosine_rational duplicate_service "B" 10 = Ok r
     ∧ Forall (λ x, entity_id x ≠ "B") r
     ∧ NoDup (entity_id <$> r)
     ∧ Forall (λ x, entity_id x ∈ (svc_node_to_entity duplicate_service).*2) r.
Proof.
  assert (service_wf duplicate_service) as Hwf
    by (apply (bool_decide_unpack _); vm_compute; reflexivity).
  split; [exact Hwf|].
  exact (find_similar_excludes_query cosine_rational duplicate_service "B" 10 Hwf).
Defined.

(** X6: on a well-formed service a [top_k ≥ 0] bounds the length of the
    list returned, and so does the number of nodes. *)
Theorem find_similar_at_most_top_k (cosine_similarity : vec → vec → Q)
    (svc : EmbeddingService) (q : string) (top_k : Z) :
  service_wf svc → (0 <= top_k)%Z →
  ∃ r, find_similar_entities cosine_similarity svc q top_k = Ok r
     ∧ length r <= Z.to_nat top_k
     ∧ length r <= length (svc_node_to_entity svc).
Proof.
  intros Hwf Hk.
  destruct (find_similar_candidates cosine_similarity svc q Hwf)
    as (ranked & Hr & _ & _ & Hlen).
  exists (slice_to ranked top_k). split; [done|].
  rewrite slice_to_length, (proj2 (Z.leb_le 0 top_k)) by done. lia.
Qed.

Lemma find_similar_at_most_top_k_witness :
  service_wf example_service ∧ (0 <= 1)%Z
  ∧ ∃ r, find_similar_entities cosine_rational example_service "A" 1 = Ok r
     ∧ length r <= Z.to_nat 1
     ∧ length r <= length (svc_node_to_entity example_service).
Proof.
  assert (service_wf example_service) as Hwf
    by (apply (bool_decide_unpack _); vm_compute; reflexivity).
  assert (0 <= 1)%Z as Hk by lia.
  split; [exact Hwf|]. split; [exact Hk|].
  exact (find_similar_at_most_top_k cosine_rational example_service "A" 1 Hwf Hk).
Defined.

(** X7: on a well-formed service, for a mapped query and a [top_k] of at
    least the number of nodes, the list returned holds every entity other
    than the query. *)
Theorem find_similar_returns_all_candidates (cosine_similarity : vec → vec → Q)
    (svc : EmbeddingService) (q : string) (top_k : Z) :
  service_wf svc →
  is_Some (PyDict.get (svc_entity_to_node svc) q) →
  (Z.of_nat (length (svc_node_to_entity svc)) <= top_k)%Z →
  ∃ r, find_similar_entities cosine_similarity svc q top_k = Ok r
     ∧ ∀ e, e ∈ entity_id <$> r ↔ e ∈ (svc_node_to_entity svc).*2 ∧ e ≠ q.
Proof.
  intros Hwf Hq Hk.
  destruct (find_similar_candidates cosine_similarity svc q Hwf)
    as (ranked & Hr & _ & Hin & Hlen).
  exists ranked. split.
  - rewrite Hr, slice_to_all; [done|lia].
  - intros e. rewrite Hin. tauto.
Qed.

Lemma find_similar_returns_all_candidates_witness :
  service_wf example_service
  ∧ is_Some (PyDict.get (svc_entity_to_node example_service) "A")
  ∧ (Z.of_nat (length (svc_node_to_entity example_service)) <= 3)%Z
  ∧ ∃ r, find_similar_entities cosine_rational example_service "A" 3 = Ok r
     ∧ ∀ e, e ∈ entity_id <$> r
            ↔ e ∈ (svc_node_to_entity example_service).*2 ∧ e ≠ "A".
Proof.
  assert (service_wf example_service) as Hwf
    by (apply (bool_decide_unpack _); vm_compute; reflexivity).
  assert (is_Some (PyDict.get (svc_entity_to_node example_service) "A")) as Hq
    by (by exists 0).
  assert (Z.of_nat (length (svc_node_to_entity example_service)) <= 3)%Z as Hk
    by (simpl; lia).
  split; [exact Hwf|]. split; [exact Hq|]. split; [exact Hk|].
  exact (find_similar_returns_all_candidates cosine_rational example_service
           "A" 3 Hwf Hq Hk).
Defined.

(** ** The two ways of reading the embeddings agree *)

Section last_wins.
Context {K V : Type} `{EqDecision K}.
Implicit Types (d kvs : list (K * V)).

Lemma get_app d1 d2 (k : K) :
  PyDict.get (d1 ++ d2) k
  = match PyDict.get d1 k with Some v => Some v | None => PyDict.get d2 k end.
Proof.
  induction d1 as [|[k0 v0] d1 IH]; simpl; [done|]. by case_decide.
Qed.

(** After a run of assignments a key holds the value assigned last. *)
Lemma get_foldl_set d kvs (k : K) :
  PyDict.get (foldl (λ d kv, PyDict.set d kv.1 kv.2) d kvs) k
  = match PyDict.get (reverse kvs) k with
    | Some v => Some v
    | None => PyDict.get d k
    end.
Proof.
  revert d. induction kvs as [|[k0 v0] kvs IH]; intros d; simpl; [done|].
  rewrite IH, reverse_cons, get_app, get_set. simpl.
  destruct (PyDict.get (reverse kvs) k); [done|]. by case_decide.
Qed.

End last_wins.

Lemma build_mappings_foldl (items : list (nat * string))
    (n2e : pydict nat string) (e2n : pydict string nat) :
  build_mappings items n2e e2n
  = (foldl (λ d kv, PyDict.set d kv.1 kv.2) n2e items,
     foldl (λ d kv, PyDict.set d kv.1 kv.2) e2n
       (map (λ kv : nat * string, (kv.2, kv.1)) items)).
Proof.
  revert n2e e2n. induction items as [|[i e] items IH]; intros n2e e2n; simpl; [done|].
  by rewrite IH.
Qed.

(** Two runs of assignments over the same keys, with related values,
    leave related values behind. *)
Lemma get_related {A B : Type} (P : A → B → Prop)
    (l1 : list (string * A)) (l2 : list (string * B)) (k : string) (a : A) :
  Forall2 (λ x y, x.1 = y.1 ∧ P x.2 y.2) l1 l2 →
  PyDict.get l1 k = Some a → ∃ b, PyDict.get l2 k = Some b ∧ P a b.
Proof.
  induction 1 as [|[k1 a1] [k2 b2] l1 l2 [Hk HP] _ IH]; simpl in *; [done|].
  subst k2. case_decide; [|done]. intros [= ->]. eauto.
Qed.

(** The dictionary of all embeddings gives every mapped identifier the row
    of its index, repeated identifiers included. *)
Lemma indexed_service_all_rows (m : RGCNModel) (ids : list string) :
  (length ids ≤ length (node_embedding m))%nat →
  ∃ all, get_embeddings (indexed_service m ids) None = Ok all
    ∧ ∀ e i, PyDict.get (svc_entity_to_node (indexed_service m ids)) e = Some i →
        ∃ v, node_embedding m !! i = Some v ∧ PyDict.get all e = Some v.
Proof.
  intros Hlen. pose proof (indexed_service_wf_any m ids Hlen) as [_ Hwf].
  destruct (all_embeddings_loop_ok _ _ [] Hwf) as (vs & Hvs & Hloop).
  unfold get_embeddings. rewrite Hloop. clear Hloop Hwf.
  eexists. split; [done|]. intros e i.
  unfold indexed_service in *. simpl in *.
  rewrite build_mappings_foldl in *. simpl in *.
  assert (foldl (λ d kv, PyDict.set d kv.1 kv.2) [] (enumerate ids) = enumerate ids)
    as Hn.
  { apply (foldl_set_fresh []). simpl. unfold enumerate.
    rewrite enumerate_from_fst. apply NoDup_seq. }
  rewrite Hn in *. clear Hn.
  rewrite !get_foldl_set. simpl.
  destruct (PyDict.get (reverse (map (λ kv : nat * string, (kv.2, kv.1))
                                  (enumerate ids))) e) as [j|] eqn:Hj; [|done].
  intros [= ->].
  destruct (get_related (λ (i : nat) (v : vec), node_embedding m !! i = Some v)
              (reverse (map (λ kv : nat * string, (kv.2, kv.1)) (enumerate ids)))
              (reverse (zip (enumerate ids).*2 vs)) e i) as (v & Hgv & Hv);
    [|done|exists v; split; [done|]; by rewrite Hgv].
  apply Forall2_reverse.
  clear Hj. induction Hvs as [|[j e'] v items vs' Hv _ IH]; simpl; constructor; done.
Qed.

(** X8: for the service [startup] builds, repeated identifiers included,
    the dictionary [get_embeddings()] returns and a request for one mapped
    identifier agree: both give it the row of the table at the index
    [entity_to_node] holds for it. *)
Theorem get_embeddings_all_agrees_with_single (m : RGCNModel) (ids : list string) :
  (length ids ≤ length (node_embedding m))%nat →
  ∃ all, get_embeddings (indexed_service m ids) None = Ok all
    ∧ ∀ e i, PyDict.get (svc_entity_to_node (indexed_service m ids)) e = Some i →
        ∃ v, node_embedding m !! i = Some v
           ∧ PyDict.get all e = Some v
           ∧ get_embeddings (indexed_service m ids) (Some [e]) = Ok [(e, v)].
Proof.
  intros Hlen. destruct (indexed_service_all_rows m ids Hlen) as (all & Hall & Hrows).
  exists all. split; [done|]. intros e i Hi.
  destruct (Hrows e i Hi) as (v & Hv & Hget). exists v. split; [done|]. split; [done|].
  change (node_embedding m) with (node_embedding (svc_model (indexed_service m ids)))
    in Hv.
  generalize dependent (indexed_service m ids). intros svc _ _ Hi Hv.
  unfold get_embeddings. simpl. rewrite Hi. simpl.
  unfold gather. simpl. unfold row. rewrite Hv. done.
Qed.

Lemma get_embeddings_all_agrees_with_single_witness :
  (length ["A"; "B"; "C"; "B"]
   ≤ length (node_embedding (RGCNModel_init example_ini 4 1 2 2 1)))%nat
  ∧ ∃ all, get_embeddings duplicate_service None = Ok all
    ∧ ∀ e i, PyDict.get (svc_entity_to_node duplicate_service) e = Some i →
        ∃ v, node_embedding (RGCNModel_init example_ini 4 1 2 2 1) !! i = Some v
           ∧ PyDict.get all e = Some v
           ∧ get_embeddings duplicate_service (Some [e]) = Ok [(e, v)].
Proof.
  assert (length ["A"; "B"; "C"; "B"]
          ≤ length (node_embedding (RGCNModel_init example_ini 4 1 2 2 1)))%nat
    as Hlen by (simpl; lia).
  split; [exact Hlen|].
  exact (get_embeddings_all_agrees_with_single
           (RGCNModel_init example_ini 4 1 2 2 1) ["A"; "B"; "C"; "B"] Hlen).
Defined.

(** ** [compute_similarity_matrix] *)

Lemma omap_get_resolved (svc : EmbeddingService) (d : pydict string vec)
    (ids l : list string) :
  NoDup d.*1 →
  (∀ e, e ∈ d.*1 ↔ e ∈ ids ∧ is_Some (PyDict.get (svc_entity_to_node svc) e)) →
  Forall (λ kv, ∃ i, PyDict.get (svc_entity_to_node svc) kv.1 = Some i
                   ∧ node_embedding (svc_model svc) !! i = Some kv.2) d →
  l ⊆ ids →
  Forall2 (λ e v, ∃ i, PyDict.get (svc_entity_to_node svc) e = Some i
                     ∧ node_embedding (svc_model svc) !! i = Some v)
    (filter (λ e, is_Some (PyDict.get (svc_entity_to_node svc) e)) l)
    (omap (PyDict.get d) l).
Proof.
  intros Hnd Hkeys Hrows. induction l as [|e l IH]; intros Hsub; [constructor|].
  assert (e ∈ ids) as He by (apply Hsub; apply elem_of_cons; auto).
  assert (l ⊆ ids) as Hl by (intros x Hx; apply Hsub; apply elem_of_cons; auto).
  rewrite filter_cons. simpl. case_decide as Hm.
  - assert (e ∈ d.*1) as Hin by (by apply Hkeys).
    destruct (PyDict.get d e) as [v|] eqn:Hv; [|by apply get_None_keys in Hv].
    constructor; [|by apply IH].
    apply get_Some_elem_of in Hv. rewrite Forall_forall in Hrows.
    apply (Hrows _ Hv).
  - assert (e ∉ d.*1) as Hni by (intros Hin; apply Hkeys in Hin; tauto).
    apply get_None_keys in Hni. rewrite Hni. by apply IH.
Qed.

(** X9: on a well-formed service [compute_similarity_matrix] returns the
    pairwise similarities of the rows of exactly the requested identifiers
    that resolve, in request order, repeats included: a square matrix of
    that many rows, or the empty array when none resolves or the rows have
    no coordinates. *)
Theorem similarity_matrix_square (cosine_similarity : vec → vec → Q)
    (svc : EmbeddingService) (ids : list string) :
  service_wf svc →
  ∃ rows M,
    Forall2 (λ e v, ∃ i, PyDict.get (svc_entity_to_node svc) e = Some i
                       ∧ node_embedding (svc_model svc) !! i = Some v)
      (filter (λ e, is_Some (PyDict.get (svc_entity_to_node svc) e)) ids) rows
    ∧ compute_similarity_matrix cosine_similarity svc ids = Ok M
    ∧ M = (if decide (length rows * length (default [] (head rows)) = 0) then []
           else map (λ a, map (cosine_similarity a) rows) rows)
    ∧ (M ≠ [] → has_shape M (length rows) (length rows)).
Proof.
  intros Hwf.
  destruct (get_embeddings_some_spec svc ids Hwf) as (d & Hd & Hnd & Hkeys & Hrows).
  pose proof (omap_get_resolved svc d ids ids Hnd Hkeys Hrows (reflexivity _)) as H2.
  exists (omap (PyDict.get d) ids).
  unfold compute_similarity_matrix. rewrite Hd. simpl.
  destruct d as [|kv d].
  - assert (omap (PyDict.get (@nil (string * vec))) ids = []) as Hnil.
    { clear. induction ids as [|a l IH]; [done|]. exact IH. }
    rewrite Hnil in *. exists []. split; [done|]. split; [done|].
    split; [done|]. done.
  - case_decide as Hz.
    + exists []. split; [done|]. split; [done|]. split; done.
    + eexists. split; [done|]. split; [done|]. split; [done|].
      intros _. unfold has_shape. rewrite length_map. split; [done|].
      apply Forall_forall. intros v Hv.
      apply list_elem_of_fmap in Hv as (a & -> & _). by rewrite length_map.
Qed.

Lemma similarity_matrix_square_witness :
  service_wf example_service
  ∧ ∃ rows M,
    Forall2 (λ e v, ∃ i, PyDict.get (svc_entity_to_node example_service) e = Some i
                       ∧ node_embedding (svc_model example_service) !! i = Some v)
      (filter (λ e, is_Some (PyDict.get (svc_entity_to_node example_service) e))
         ["A"; "Z"; "C"; "A"]) rows
    ∧ compute_similarity_matrix cosine_rational example_service ["A"; "Z"; "C"; "A"]
      = Ok M
    ∧ M = (if decide (length rows * length (default [] (head rows)) = 0) then []
           else map (λ a, map (cosine_rational a) rows) rows)
    ∧ (M ≠ [] → has_shape M (length rows) (length rows)).
Proof.
  assert (service_wf example_service) as Hwf
    by (apply (bool_decide_unpack _); vm_compute; reflexivity).
  split; [exact Hwf|].
  exact (similarity_matrix_square cosine_rational example_service
           ["A"; "Z"; "C"; "A"] Hwf).
Defined.


(** ** Scoring edges and running epochs *)



(** A pair of lists with an end past the table: the score is an error. *)
Example score_edges_past_the_table :
  score_edges example_table ([0; 1], [1; 4]) = Raise IndexError.
Proof. reflexivity. Qed.

(** ** The model and the trainer [startup] constructs *)

Lemma load_state_dict_meta (m m' : RGCNModel) (sd : state_dict) :
  load_state_dict m sd = Some m' →
  num_nodes m' = num_nodes m ∧ num_relations m' = num_relations m
  ∧ embedding_dim m' = embedding_dim m ∧ hidden_dim m' = hidden_dim m
  ∧ num_layers m' = num_layers m.
Proof. unfold load_state_dict. case_decide; [|done]. by intros [= <-]. Qed.

Lemma startup_model_trainer {optimizer_state : Type} (gd : graph_data) (cfg : config)
    (ini : initializer) (o : optimizer_state) (snapshot : option state_dict)
    (st0 : app_state optimizer_state) :
  entity_ids gd ≠ [] →
  ∃ m, model (startup true gd cfg ini o snapshot st0) = Some m
     ∧ trainer (startup true gd cfg ini o snapshot st0)
       = Some {| edge_index := edges gd; edge_type := edge_types gd;
                 num_negative_samples := 1; optimizer := o |}
     ∧ graph_data_cache (startup true gd cfg ini o snapshot st0) = Some gd
     ∧ stats (startup true gd cfg ini o snapshot st0) = stats st0
     ∧ num_nodes m = length (entity_ids gd)
     ∧ num_relations m = length (rel_type_map gd)
     ∧ embedding_dim m = RGCN_EMBEDDING_DIM cfg
     ∧ length (node_embedding m) = length (entity_ids gd).
Proof.
  intros Hne. unfold startup. simpl.
  rewrite decide_False by (by intros ?%nil_length_inv).
  destruct (build_mappings (enumerate (entity_ids gd)) _ _) as [n2e e2n].
  simpl. eexists. split; [done|]. split; [done|]. split; [done|]. split; [done|].
  destruct snapshot as [sd|]; simpl.
  - destruct (load_state_dict _ sd) as [m'|] eqn:Hload; simpl.
    + destruct (load_state_dict_meta _ _ _ Hload) as (-> & -> & -> & _).
      rewrite (load_state_dict_rows _ _ _ Hload). simpl.
      repeat split. apply (tabulate_shape (length (entity_ids gd)) _ (init_embedding ini)).
    + repeat split. apply (tabulate_shape (length (entity_ids gd)) _ (init_embedding ini)).
  - repeat split. apply (tabulate_shape (length (entity_ids gd)) _ (init_embedding ini)).
Qed.

(** ** Epochs that run to the end *)

Section epochs.
Context {generator optimizer_state : Type}.
Variable randint : nat → nat → nat → generator → list nat * generator.
Variable binary_cross_entropy_with_logits : list Q → list Q → Q.
Variable backward_step :
  RGCNModel → optimizer_state → edge_index_t → edge_type_t → edge_index_t →
  RGCNModel * optimizer_state.

Hypothesis randint_ok : randint_contract randint.

(** The optimizer changes the values of the parameters, not the number
    of nodes or of rows of the table. *)
Hypothesis step_keeps_rows : ∀ m o ei et neg,
  num_nodes (backward_step m o ei et neg).1 = num_nodes m
  ∧ length (node_embedding (backward_step m o ei et neg).1)
    = length (node_embedding m).

Lemma train_epoch_ok (tr : RGCNTrainer optimizer_state) (m : RGCNModel)
    (g : generator) :
  0 < num_nodes m →
  length (node_embedding m) = num_nodes m →
  Forall (λ i, i < num_nodes m) (edge_index tr).1 →
  Forall (λ i, i < num_nodes m) (edge_index tr).2 →
  ∃ loss m' tr' g',
    train_epoch randint binary_cross_entropy_with_logits backward_step tr m g
    = Ok (loss, m', tr', g')
    ∧ num_nodes m' = num_nodes m
    ∧ length (node_embedding m') = length (node_embedding m)
    ∧ edge_index tr' = edge_index tr ∧ edge_type tr' = edge_type tr
    ∧ num_negative_samples tr' = num_negative_samples tr.
Proof.
  intros Hn Hrows Hsrc Hdst.
  pose proof (forward_length m (edge_index tr) (edge_type tr)) as Hlen.
  rewrite Hrows in Hlen.
  unfold train_epoch, sample_negative_edges.
  destruct (randint_ok 0 (num_nodes m)
              (length (edge_index tr).1 * num_negative_samples tr) g Hn) as [_ Hr1].
  destruct (randint 0 (num_nodes m)
              (length (edge_index tr).1 * num_negative_samples tr) g)
    as [neg_source g1].
  destruct (randint_ok 0 (num_nodes m)
              (length (edge_index tr).1 * num_negative_samples tr) g1 Hn) as [_ Hr2].
  destruct (randint 0 (num_nodes m)
              (length (edge_index tr).1 * num_negative_samples tr) g1)
    as [neg_target g2].
  simpl in Hr1, Hr2.
  rewrite (score_edges_total _ (edge_index tr)) by (by rewrite Hlen). simpl.
  rewrite (score_edges_total _ (neg_source, neg_target)); simpl.
  - destruct (step_keeps_rows m (optimizer tr) (edge_index tr) (edge_type tr)
                (neg_source, neg_target)) as [H1 H2].
    destruct (backward_step m (optimizer tr) (edge_index tr) (edge_type tr)
                (neg_source, neg_target)) as [m' o'].
    simpl in *. eauto 12.
  - rewrite Hlen. eapply Forall_impl; [exact Hr1|]. simpl. lia.
  - rewrite Hlen. eapply Forall_impl; [exact Hr2|]. simpl. lia.
Qed.

Lemma train_loop_ok (epochs : nat) :
  ∀ (tr : RGCNTrainer optimizer_state) (m : RGCNModel) (g : generator)
    (losses : list Q),
  0 < num_nodes m →
  length (node_embedding m) = num_nodes m →
  Forall (λ i, i < num_nodes m) (edge_index tr).1 →
  Forall (λ i, i < num_nodes m) (edge_index tr).2 →
  ∃ new m' tr' g',
    train_loop randint binary_cross_entropy_with_logits backward_step
      epochs tr m g losses
    = (None, losses ++ new, m', tr', g')
    ∧ epochs_run randint binary_cross_entropy_with_logits backward_step
        epochs tr m g new m' tr' g'
    ∧ length new = epochs
    ∧ num_nodes m' = num_nodes m
    ∧ length (node_embedding m') = length (node_embedding m)
    ∧ edge_index tr' = edge_index tr ∧ edge_type tr' = edge_type tr
    ∧ num_negative_samples tr' = num_negative_samples tr.
Proof.
  induction epochs as [|epochs IH]; intros tr m g losses Hn Hrows Hsrc Hdst; simpl.
  - exists [], m, tr, g. rewrite app_nil_r. split; [done|].
    split; [constructor|done].
  - destruct (train_epoch_ok tr m g Hn Hrows Hsrc Hdst)
      as (loss & m1 & tr1 & g1 & Hepoch & Hn1 & Hrows1 & Hei & Het & Hneg).
    rewrite Hepoch.
    destruct (IH tr1 m1 g1 (losses ++ [loss])) as
      (new & m' & tr' & g' & -> & Hrun & Hlen & Hn' & Hrows' & Hei' & Het' & Hneg');
      [lia|lia|by rewrite Hei, Hn1|by rewrite Hei, Hn1|].
    exists (loss :: new), m', tr', g'. rewrite <- app_assoc. simpl.
    split; [done|]. split; [by econstructor|]. split; [by rewrite Hlen|].
    split; [lia|]. split; [lia|].
    split; [by rewrite Hei'|]. split; [by rewrite Het'|]. by rewrite Hneg'.
Qed.

End epochs.

(** X11: after [startup] on a graph with entities whose tensors fit
    together, [POST /train] never raises, whatever the snapshot and the
    draws.  It runs [epochs] epochs one after the other on the model and
    the trainer [startup] built (none for [epochs ≤ 0]), each on what the
    one before left; it answers with the loss of the last of them (no
    final loss when none ran) and the parameters of the model the last one
    left, which stays in the globals; it keeps the mappings, the graph and
    the statistics, and leaves a table with one row per entity, so that
    the service over the globals stays well formed. *)
Theorem training_after_startup_completes {generator optimizer_state : Type}
    (randint : nat → nat → nat → generator → list nat * generator)
    (binary_cross_entropy_with_logits : list Q → list Q → Q)
    (backward_step : RGCNModel → optimizer_state → edge_index_t → edge_type_t →
                     edge_index_t → RGCNModel * optimizer_state)
    (gd : graph_data) (cfg : config) (ini : initializer) (o : optimizer_state)
    (snapshot : option state_dict) (g : generator) (epochs : Z) :
  randint_contract randint →
  (∀ m o ei et neg,
     num_nodes (backward_step m o ei et neg).1 = num_nodes m
     ∧ length (node_embedding (backward_step m o ei et neg).1)
       = length (node_embedding m)) →
  entity_ids gd ≠ [] →
  graph_wf gd →
  ∃ m0 losses m' tr' g',
    model (startup true gd cfg ini o snapshot initial_state) = Some m0
    ∧ epochs_run randint binary_cross_entropy_with_logits backward_step
        (Z.to_nat epochs)
        {| edge_index := edges gd; edge_type := edge_types gd;
           num_negative_samples := 1; optimizer := o |}
        m0 g losses m' tr' g'
    ∧ post_train randint binary_cross_entropy_with_logits backward_step
        (startup true gd cfg ini o snapshot initial_state) g epochs
      = (Ok (last losses, model_state_dict m'),
         {| model := Some m'; trainer := Some tr';
            node_to_entity :=
              node_to_entity (startup true gd cfg ini o snapshot initial_state);
            entity_to_node :=
              entity_to_node (startup true gd cfg ini o snapshot initial_state);
            graph_data_cache := Some gd;
            stats := stats (@initial_state optimizer_state) |},
         g')
    ∧ length losses = Z.to_nat epochs
    ∧ edge_index tr' = edges gd ∧ edge_type tr' = edge_types gd
    ∧ length (node_embedding m') = length (entity_ids gd)
    ∧ service_wf (indexed_service m' (entity_ids gd)).
Proof.
  intros Hrand Hstep Hne (_ & _ & Hsrc & Hdst & _).
  destruct (startup_model_trainer gd cfg ini o snapshot initial_state Hne)
    as (m & Hm & Htr & Hgd & Hstats & Hn & _ & _ & Hrows).
  unfold post_train. rewrite Hm, Htr, Hgd, Hstats.
  destruct (train_loop_ok randint binary_cross_entropy_with_logits backward_step
              Hrand Hstep (Z.to_nat epochs)
              {| edge_index := edges gd; edge_type := edge_types gd;
                 num_negative_samples := 1; optimizer := o |} m g [])
    as (new & m' & tr' & g' & -> & Hrun & Hlen & Hn' & Hrows' & Hei & Het & _).
  - rewrite Hn. destruct (entity_ids gd); [done|simpl; lia].
  - by rewrite Hn.
  - by rewrite Hn.
  - by rewrite Hn.
  - simpl in *. exists m, new, m', tr', g'.
    split; [done|]. split; [done|]. split; [done|]. split; [done|].
    split; [done|]. split; [done|].
    split; [lia|]. apply indexed_service_wf_any. lia.
Qed.

Lemma training_after_startup_completes_witness :
  randint_contract counter_randint
  ∧ (∀ m o ei et neg,
       num_nodes (null_step m o ei et neg).1 = num_nodes m
       ∧ length (node_embedding (null_step m o ei et neg).1)
         = length (node_embedding m))
  ∧ entity_ids example_graph ≠ []
  ∧ graph_wf example_graph
  ∧ ∃ m0 losses m' tr' g',
      model example_state = Some m0
      ∧ epochs_run counter_randint linear_bce null_step (Z.to_nat 2)
          {| edge_index := edges example_graph; edge_type := edge_types example_graph;
             num_negative_samples := 1; optimizer := tt |}
          m0 0 losses m' tr' g'
      ∧ post_train counter_randint linear_bce null_step example_state 0 2
        = (Ok (last losses, model_state_dict m'),
           {| model := Some m'; trainer := Some tr';
              node_to_entity := node_to_entity example_state;
              entity_to_node := entity_to_node example_state;
              graph_data_cache := Some example_graph;
              stats := stats (@initial_state unit) |},
           g')
      ∧ length losses = Z.to_nat 2
      ∧ edge_index tr' = edges example_graph
      ∧ edge_type tr' = edge_types example_graph
      ∧ length (node_embedding m') = length (entity_ids example_graph)
      ∧ service_wf (indexed_service m' (entity_ids example_graph)).
Proof.
  assert (∀ m o ei et neg,
            num_nodes (null_step m o ei et neg).1 = num_nodes m
            ∧ length (node_embedding (null_step m o ei et neg).1)
              = length (node_embedding m)) as Hstep by done.
  assert (entity_ids example_graph ≠ []) as Hne by done.
  assert (graph_wf example_graph) as Hwf.
  { unfold graph_wf. simpl. repeat split; repeat constructor. }
  split; [exact counter_randint_contract|].
  split; [exact Hstep|]. split; [exact Hne|]. split; [exact Hwf|].
  exact (training_after_startup_completes counter_randint linear_bce null_step
           example_graph example_cfg example_ini tt None 0 2
           counter_randint_contract Hstep Hne Hwf).
Defined.

(** ** [GET /health] after [startup] *)

(** X12: what [GET /health] answers once [startup] has run from the
    initial globals.  If Neo4j was unreachable at startup the answer is
    the error "Graph data not loaded"; if the graph had no entity it is a
    "partial" report without model statistics; otherwise it is an "ok"
    report whose model statistics agree with the graph statistics (as many
    nodes as entities, as many relations as relation types) and with the
    configured embedding dimension, whether or not a snapshot was read. *)
Theorem health_after_startup {optimizer_state : Type} (connected neo4j_ok : bool)
    (gd : graph_data) (cfg : config) (ini : initializer) (o : optimizer_state)
    (snapshot : option state_dict) :
  health (Some neo4j_ok) (startup connected gd cfg ini o snapshot initial_state)
  = if connected then
      if decide (entity_ids gd = []) then
        HealthReport "partial" false neo4j_ok
          0 (length (edge_types gd)) (length (rel_type_map gd)) None None None
      else
        HealthReport "ok" true neo4j_ok
          (length (entity_ids gd)) (length (edge_types gd)) (length (rel_type_map gd))
          (Some (RGCN_EMBEDDING_DIM cfg)) (Some (length (rel_type_map gd)))
          (Some (length (entity_ids gd)))
    else HealthError "Graph data not loaded" (Some neo4j_ok).
Proof.
  destruct connected; [|done]. case_decide as Hids.
  - unfold startup, health. rewrite Hids. simpl. by rewrite Hids.
  - destruct (startup_model_trainer gd cfg ini o snapshot initial_state Hids)
      as (m & Hm & _ & Hgd & _ & Hn & HR & Hdim & _).
    unfold health. rewrite Hgd, Hm. simpl. by rewrite Hn, HR, Hdim.
Qed.


(** ** The request handlers and the statistics *)

(** X13: with a model loaded and every mapped index a row of its table,
    [POST /embeddings] never raises.  It answers with the distinct
    requested identifiers that are mapped, counts one query, and adds the
    number of embeddings answered, at most the length of the request, to
    [embeddings_count]; nothing else changes. *)
Theorem post_embeddings_counts {optimizer_state : Type}
    (st : app_state optimizer_state) (m : RGCNModel) (ids : list string) :
  model st = Some m →
  service_wf (service_of m st) →
  ∃ embeddings,
    post_embeddings st ids
    = (Ok (embeddings, embeddings.*1),
       {| model := model st; trainer := trainer st;
          node_to_entity := node_to_entity st; entity_to_node := entity_to_node st;
          graph_data_cache := graph_data_cache st;
          stats := {| total_queries := S (total_queries (stats st));
                      avg_similarity := avg_similarity (stats st);
                      embeddings_count :=
                        embeddings_count (stats st) + length embeddings |} |})
    ∧ NoDup embeddings.*1
    ∧ (∀ e, e ∈ embeddings.*1
            ↔ e ∈ ids ∧ is_Some (PyDict.get (entity_to_node st) e))
    ∧ (length embeddings ≤ length ids)%nat.
Proof.
  intros Hm Hwf.
  destruct (get_embeddings_some_spec (service_of m st) ids Hwf)
    as (d & Hd & Hnd & Hkeys & _).
  exists d. unfold post_embeddings, count_query. rewrite Hm, Hd.
  split; [reflexivity|]. split; [exact Hnd|]. split; [exact Hkeys|].
  rewrite <- (length_fmap fst d). apply submseteq_length.
  apply NoDup_submseteq; [done|]. intros e He. by apply Hkeys in He as [He _].
Qed.

Lemma post_embeddings_counts_witness :
  model example_state = Some example_model
  ∧ service_wf (service_of example_model example_state)
  ∧ ∃ embeddings,
      post_embeddings example_state ["A"; "Z"; "C"; "A"]
      = (Ok (embeddings, embeddings.*1),
         {| model := model example_state; trainer := trainer example_state;
            node_to_entity := node_to_entity example_state;
            entity_to_node := entity_to_node example_state;
            graph_data_cache := graph_data_cache example_state;
            stats := {| total_queries := S (total_queries (stats example_state));
                        avg_similarity := avg_similarity (stats example_state);
                        embeddings_count :=
                          embeddings_count (stats example_state)
                          + length embeddings |} |})
      ∧ NoDup embeddings.*1
      ∧ (∀ e, e ∈ embeddings.*1
              ↔ e ∈ ["A"; "Z"; "C"; "A"]
                ∧ is_Some (PyDict.get (entity_to_node example_state) e))
      ∧ (length embeddings ≤ length ["A"; "Z"; "C"; "A"])%nat.
Proof.
  assert (model example_state = Some example_model) as Hm by reflexivity.
  assert (service_wf (service_of example_model example_state)) as Hwf
    by (apply (bool_decide_unpack _); vm_compute; reflexivity).
  split; [exact Hm|]. split; [exact Hwf|].
  exact (post_embeddings_counts example_state example_model
           ["A"; "Z"; "C"; "A"] Hm Hwf).
Defined.

(** Of the four identifiers requested two embeddings are counted. *)
Example post_embeddings_A_Z_C_A :
  embeddings_count (stats (post_embeddings example_state ["A"; "Z"; "C"; "A"]).2) = 2.
Proof. reflexivity. Qed.


(** X14: with a model loaded and every mapped index a row of its table,
    [POST /similar] never raises.  It answers with what
    [find_similar_entities] returns, counts one query and leaves
    [embeddings_count] alone; for an identifier that is not mapped, or a
    [top_k] of zero, the answer is the empty list and [avg_similarity]
    keeps its value, and otherwise [avg_similarity] becomes the half sum
    of its old value and the mean score of the answer. *)
Theorem post_similar_statistics (cosine_similarity : vec → vec → Q)
    {optimizer_state : Type} (st : app_state optimizer_state) (m : RGCNModel)
    (q : string) (top_k : Z) :
  model st = Some m →
  service_wf (service_of m st) →
  ∃ similar st',
    post_similar cosine_similarity st q top_k = (Ok (q, similar), st')
    ∧ find_similar_entities cosine_similarity (service_of m st) q top_k = Ok similar
    ∧ (PyDict.get (entity_to_node st) q = None ∨ top_k = 0%Z → similar = [])
    ∧ total_queries (stats st') = S (total_queries (stats st))
    ∧ embeddings_count (stats st') = embeddings_count (stats st)
    ∧ avg_similarity (stats st')
      = (if decide (similar = []) then avg_similarity (stats st)
         else (avg_similarity (stats st)
               + foldr Qplus 0 (map score similar)
                 / inject_Z (Z.of_nat (length similar))) / 2)%Q
    ∧ model st' = model st ∧ trainer st' = trainer st
    ∧ node_to_entity st' = node_to_entity st
    ∧ entity_to_node st' = entity_to_node st
    ∧ graph_data_cache st' = graph_data_cache st.
Proof.
  intros Hm Hwf.
  destruct (find_similar_candidates cosine_similarity (service_of m st) q Hwf)
    as (ranked & Hranked & _ & Hmem & _).
  exists (slice_to ranked top_k). unfold post_similar. rewrite Hm, Hranked.
  eexists. split; [reflexivity|]. split; [reflexivity|]. split.
  - intros [Hq| ->]; [|apply slice_to_zero].
    destruct ranked as [|r ranked].
    { destruct (slice_to_take (@nil similar_entry) top_k) as [n ->].
      apply take_nil. }
    destruct (Hmem (entity_id r)) as [[[i Hi] _] _]; [apply elem_of_cons; auto|].
    simpl in Hi. congruence.
  - destruct (slice_to ranked top_k) as [|s similar]; simpl.
    + by rewrite Hm.
    + by rewrite Hm.
Qed.

Lemma post_similar_statistics_witness :
  model example_state = Some example_model
  ∧ service_wf (service_of example_model example_state)
  ∧ ∃ similar st',
      post_similar cosine_rational example_state "A" 1 = (Ok ("A", similar), st')
      ∧ find_similar_entities cosine_rational
          (service_of example_model example_state) "A" 1 = Ok similar
      ∧ (PyDict.get (entity_to_node example_state) "A" = None ∨ 1%Z = 0%Z
         → similar = [])
      ∧ total_queries (stats st') = S (total_queries (stats example_state))
      ∧ embeddings_count (stats st') = embeddings_count (stats example_state)
      ∧ avg_similarity (stats st')
        = (if decide (similar = []) then avg_similarity (stats example_state)
           else (avg_similarity (stats example_state)
                 + foldr Qplus 0 (map score similar)
                   / inject_Z (Z.of_nat (length similar))) / 2)%Q
      ∧ model st' = model example_state ∧ trainer st' = trainer example_state
      ∧ node_to_entity st' = node_to_entity example_state
      ∧ entity_to_node st' = entity_to_node example_state
      ∧ graph_data_cache st' = graph_data_cache example_state.
Proof.
  assert (model example_state = Some example_model) as Hm by reflexivity.
  assert (service_wf (service_of example_model example_state)) as Hwf
    by (apply (bool_decide_unpack _); vm_compute; reflexivity).
  split; [exact Hm|]. split; [exact Hwf|].
  exact (post_similar_statistics cosine_rational example_state example_model
           "A" 1 Hm Hwf).
Defined.

(** ** The constructor for any layer count *)

Lemma conv_dims_length (emb hid : nat) (L : Z) :
  length (conv_dims emb hid L)
  = if decide (L = 1%Z) then 1 else Z.to_nat (Z.max L 2).
Proof.
  unfold conv_dims. destruct (Z.eqb_spec L 1) as [->|HL].
  - done.
  - rewrite decide_False by done. simpl.
    rewrite length_app, length_replicate. simpl. lia.
Qed.

Lemma conv_dims_last (emb hid : nat) (L : Z) :
  ∃ i, last (conv_dims emb hid L) = Some (i, emb).
Proof.
  unfold conv_dims. destruct (L =? 1)%Z.
  - by exists emb.
  - exists hid. rewrite app_comm_cons. apply last_snoc.
Qed.

(** X15: the constructor for any value of [num_layers], the values below
    one included.  It builds one layer for 1 and [max(num_layers, 2)]
    layers otherwise, so that 0 and negative counts give the same two
    layers as 2 while the attribute [num_layers] keeps the value passed;
    and whatever the count, the forward pass returns one row of
    [embedding_dim] coordinates per node. *)
Theorem constructor_any_layer_count (ini : initializer) (n R emb hid : nat) (L : Z)
    (ei : edge_index_t) (et : edge_type_t) :
  length (convs (RGCNModel_init ini n R emb hid L))
  = (if decide (L = 1%Z) then 1 else Z.to_nat (Z.max L 2))
  ∧ num_layers (RGCNModel_init ini n R emb hid L) = L
  ∧ ((L ≤ 0)%Z →
     convs (RGCNModel_init ini n R emb hid L)
     = convs (RGCNModel_init ini n R emb hid 2))
  ∧ has_shape (forward (RGCNModel_init ini n R emb hid L) ei et) n emb.
Proof.
  pose proof (RGCNModel_init_convs ini n R emb hid L) as Hdims.
  split; [|split; [done|split]].
  - rewrite <- (conv_dims_length emb hid L), <- Hdims. by rewrite length_map.
  - intros HL. simpl. unfold conv_dims.
    destruct (Z.eqb_spec L 1) as [->|_]; [lia|].
    replace (Z.to_nat (L - 2)) with 0 by lia. done.
  - destruct (conv_dims_last emb hid L) as [i Hlast].
    rewrite <- Hdims in Hlast.
    remember (convs (RGCNModel_init ini n R emb hid L)) as l eqn:Hcs.
    destruct l as [|c0 l _] using rev_ind; [done|]. symmetry in Hcs.
    rewrite map_app in Hlast. simpl in Hlast.
    rewrite last_snoc in Hlast. injection Hlast as _ Hout.
    destruct (forward_shape (RGCNModel_init ini n R emb hid L) l c0 ei et Hcs)
      as [_ Hshape].
    rewrite Hout in Hshape.
    replace (length (node_embedding (RGCNModel_init ini n R emb hid L))) with n
      in Hshape; [done|].
    symmetry. apply (tabulate_shape n emb (init_embedding ini)).
Qed.

(** A count of zero: two layers, as for the default. *)
Example constructor_zero_layers :
  map (λ c, (in_channels c, out_channels c))
    (convs (RGCNModel_init example_ini 3 1 64 128 0))
  = [(64, 128); (128, 64)].
Proof. reflexivity. Qed.

(** ** Restoring a snapshot at [startup] *)

Lemma shape_tabulate (r c : nat) (f : nat → nat → Q) :
  shape (tabulate r c f) = map (λ _, c) (seq 0 r).
Proof.
  unfold shape, tabulate. rewrite map_map. apply map_ext. intros i.
  by rewrite length_map, length_seq.
Qed.

Lemma conv_shape_init (ini ini' : initializer) (l i o R : nat) :
  conv_shape (root (RGCNConv_init ini l i o R), weight (RGCNConv_init ini l i o R))
  = conv_shape (root (RGCNConv_init ini' l i o R),
                weight (RGCNConv_init ini' l i o R)).
Proof.
  unfold conv_shape. simpl. rewrite !shape_tabulate, !map_map. f_equal.
  apply map_ext. intros r. by rewrite !shape_tabulate.
Qed.

Lemma conv_shapes_imap (g g' : nat → nat * nat → RGCNConv) (ds : list (nat * nat)) :
  (∀ l d, conv_shape (root (g l d), weight (g l d))
          = conv_shape (root (g' l d), weight (g' l d))) →
  map conv_shape (map (λ c, (root c, weight c)) (imap g ds))
  = map conv_shape (map (λ c, (root c, weight c)) (imap g' ds)).
Proof.
  revert g g'. induction ds as [|d ds IH]; intros g g' H; simpl; [done|].
  rewrite H. f_equal. apply IH. intros l d'. apply H.
Qed.

Lemma load_convs_imap (g g' : nat → nat * nat → RGCNConv) (ds : list (nat * nat)) :
  (∀ l d, in_channels (g l d) = in_channels (g' l d)
          ∧ out_channels (g l d) = out_channels (g' l d)
          ∧ conv_num_relations (g l d) = conv_num_relations (g' l d)) →
  zip_with (λ c rw,
      {| in_channels := in_channels c; out_channels := out_channels c;
         conv_num_relations := conv_num_relations c;
         root := rw.1; weight := rw.2 |})
    (imap g ds) (map (λ c, (root c, weight c)) (imap g' ds))
  = imap g' ds.
Proof.
  revert g g'. induction ds as [|d ds IH]; intros g g' H; simpl; [done|].
  f_equal.
  - destruct (H 0 d) as (-> & -> & ->). by destruct (g' 0 d).
  - apply IH. intros l d'. apply H.
Qed.

(** A snapshot saved from a model of the same sizes is loaded whole. *)
Lemma load_state_dict_same_sizes (ini ini' : initializer) (n R emb hid : nat) (L : Z) :
  load_state_dict (RGCNModel_init ini n R emb hid L)
    (model_state_dict (RGCNModel_init ini' n R emb hid L))
  = Some (RGCNModel_init ini' n R emb hid L).
Proof.
  unfold load_state_dict. rewrite decide_True.
  - unfold RGCNModel_init. simpl. f_equal. f_equal.
    apply load_convs_imap. intros l d. done.
  - split.
    + simpl. by rewrite !shape_tabulate.
    + simpl. apply conv_shapes_imap. intros l d. apply conv_shape_init.
Qed.

(** X16: a snapshot saved from a model built for as many nodes and
    relation types under the same configuration, whatever its parameter
    values, is restored whole by [startup]: the model served has the
    snapshot's embedding table and layer weights and none of the fresh
    random values. *)
Theorem startup_restores_snapshot {optimizer_state : Type} (gd : graph_data)
    (cfg : config) (ini ini' : initializer) (o : optimizer_state) :
  entity_ids gd ≠ [] →
  let saved :=
    RGCNModel_init ini' (length (entity_ids gd)) (length (rel_type_map gd))
      (RGCN_EMBEDDING_DIM cfg) (RGCN_HIDDEN_DIM cfg) (RGCN_NUM_LAYERS cfg) in
  model (startup true gd cfg ini o (Some (model_state_dict saved)) initial_state)
  = Some saved.
Proof.
  intros Hne saved. unfold startup. simpl.
  rewrite decide_False by (by intros ?%nil_length_inv).
  destruct (build_mappings (enumerate (entity_ids gd)) [] []) as [n2e e2n].
  simpl. f_equal. unfold saved. by rewrite load_state_dict_same_sizes.
Qed.

Lemma startup_restores_snapshot_witness :
  entity_ids example_graph ≠ []
  ∧ model (startup true example_graph example_cfg
             {| init_embedding := λ _ _, 0%Q; init_root := λ _ _ _, 0%Q;
                init_weight := λ _ _ _ _, 0%Q |} tt
             (Some (model_state_dict example_model)) initial_state)
    = Some example_model.
Proof.
  assert (entity_ids example_graph ≠ []) as Hne by done.
  split; [exact Hne|].
  exact (startup_restores_snapshot example_graph example_cfg
           {| init_embedding := λ _ _, 0%Q; init_root := λ _ _ _, 0%Q;
              init_weight := λ _ _ _ _, 0%Q |} example_ini tt Hne).
Defined.

(** ** From the node query to [POST /embeddings] *)

(** Every identifier of the graph is mapped, to an index that holds it. *)
Lemma indexed_service_maps_all (m : RGCNModel) (ids : list string) (e : string) :
  e ∈ ids →
  ∃ j, PyDict.get (svc_entity_to_node (indexed_service m ids)) e = Some j
     ∧ ids !! j = Some e.
Proof.
  intros He. unfold indexed_service. simpl.
  destruct (PyDict.get (build_mappings (enumerate ids) [] []).2 e) as [j|] eqn:Hj.
  - exists j. split; [done|]. apply get_Some_elem_of in Hj.
    destruct (build_mappings_Forall
      (λ _, True) (λ kv : string * nat, ids !! kv.2 = Some kv.1)
      (enumerate ids) [] []) as [_ H2]; [constructor..| |].
    + apply Forall_forall. intros [i x] Hin.
      apply elem_of_enumerate_from in Hin as [_ Hin]. simpl in *.
      rewrite Nat.sub_0_r in Hin. done.
    + rewrite Forall_forall in H2. apply (H2 _ Hj).
  - apply get_None_keys in Hj. destruct Hj.
    rewrite build_mappings_foldl. simpl. apply foldl_set_keys. right.
    rewrite <- list_fmap_compose.
    apply list_elem_of_lookup_1 in He as [i Hi].
    apply list_elem_of_fmap. exists (i, e). split; [done|].
    apply elem_of_enumerate_from. split; [lia|]. by rewrite Nat.sub_0_r.
Qed.

(** X17: every row of the node query can be asked for after [startup]:
    the identifier [get_graph_data] gave it (its [id] property, or
    [node_<position>] when that is missing or empty) is mapped, and
    [POST /embeddings] for it answers with one embedding, the row of the
    table at an index that holds this identifier. *)
Theorem ingested_nodes_are_served {optimizer_state : Type}
    (nodes_result : list node_record) (edges_result : list edge_record)
    (cfg : config) (ini : initializer) (o : optimizer_state)
    (snapshot : option state_dict) (i : nat) (r : node_record) :
  nodes_result !! i = Some r →
  ∃ node_map labels gd m j v,
    get_graph_data nodes_result edges_result = Ok (node_map, labels, gd)
    ∧ model (startup true gd cfg ini o snapshot initial_state) = Some m
    ∧ entity_ids gd !! j = Some (str_or (rec_entity_id r) ("node_" +:+ pretty i))
    ∧ node_embedding m !! j = Some v
    ∧ (post_embeddings (startup true gd cfg ini o snapshot initial_state)
         [str_or (rec_entity_id r) ("node_" +:+ pretty i)]).1
      = Ok ([(str_or (rec_entity_id r) ("node_" +:+ pretty i), v)],
            [str_or (rec_entity_id r) ("node_" +:+ pretty i)]).
Proof.
  intros Hr.
  destruct (get_graph_data_spec nodes_result edges_result)
    as (node_map & labels & gd & Hgd & Hlen & _ & _ & _ & _ & _ & Hids).
  specialize (Hids i r Hr).
  set (e := str_or (rec_entity_id r) ("node_" +:+ pretty i)) in *.
  assert (entity_ids gd ≠ []) as Hne by (intros H; by rewrite H in Hids).
  destruct (startup_service_wf gd cfg ini o snapshot Hne)
    as (m & Hm & Hrows & Hsvc & [Hwf _]).
  destruct (indexed_service_maps_all m (entity_ids gd) e) as (j & Hj & Hje).
  { by apply list_elem_of_lookup_2 in Hids. }
  assert (j < length (node_embedding m)) as Hlt.
  { apply get_Some_elem_of in Hj. rewrite Forall_forall in Hwf.
    apply (Hwf _ Hj). }
  apply lookup_lt_is_Some_2 in Hlt as [v Hv].
  exists node_map, labels, gd, m, j, v.
  split; [done|]. split; [done|]. split; [done|]. split; [done|].
  unfold post_embeddings. rewrite Hm, Hsvc.
  change (node_embedding m)
    with (node_embedding (svc_model (indexed_service m (entity_ids gd)))) in Hv.
  generalize dependent (indexed_service m (entity_ids gd)). intros svc _ _ Hj Hv.
  unfold get_embeddings. simpl. rewrite Hj. simpl.
  unfold gather. simpl. unfold row. rewrite Hv. done.
Qed.

Lemma ingested_nodes_are_served_witness :
  duplicate_nodes !! 3 =
    Some {| rec_neo4j_id := 13; rec_entity_id := Some "B";
            rec_label := Some "Place" |}
  ∧ ∃ node_map labels gd m j v,
      get_graph_data duplicate_nodes [] = Ok (node_map, labels, gd)
      ∧ model (startup true gd example_cfg example_ini tt None initial_state)
        = Some m
      ∧ entity_ids gd !! j = Some (str_or (Some "B") ("node_" +:+ pretty 3))
      ∧ node_embedding m !! j = Some v
      ∧ (post_embeddings (startup true gd example_cfg example_ini tt None initial_state)
           [str_or (Some "B") ("node_" +:+ pretty 3)]).1
        = Ok ([(str_or (Some "B") ("node_" +:+ pretty 3), v)],
              [str_or (Some "B") ("node_" +:+ pretty 3)]).
Proof.
  assert (duplicate_nodes !! 3 =
            Some {| rec_neo4j_id := 13; rec_entity_id := Some "B";
                    rec_label := Some "Place" |}) as Hr by reflexivity.
  split; [exact Hr|].
  exact (ingested_nodes_are_served duplicate_nodes [] example_cfg example_ini tt None
           3 _ Hr).
Defined.

(** ** What the edges of [get_graph_data] point at *)

(** The node map sends a Neo4j id to the position of a row with that id. *)
Lemma node_map_positions (nodes_result : list node_record) (k : Z) (i : nat) :
  PyDict.get (get_graph_data_nodes nodes_result).1.1 k = Some i →
  ∃ r, nodes_result !! i = Some r ∧ rec_neo4j_id r = k.
Proof.
  unfold get_graph_data_nodes. rewrite node_loop_spec. simpl. intros Hk.
  apply get_Some_elem_of in Hk.
  assert (Forall (λ kv : Z * nat, ∃ r, nodes_result !! kv.2 = Some r
                                      ∧ rec_neo4j_id r = kv.1)
            (foldl (λ d kv, PyDict.set d kv.1 kv.2) []
               (map (λ ir : nat * node_record, (rec_neo4j_id ir.2, ir.1))
                  (enumerate nodes_result)))) as H.
  { apply foldl_set_Forall; [constructor|].
    apply Forall_forall. intros [k' j] Hin.
    apply list_elem_of_fmap in Hin as ([j' r] & [= -> ->] & Hin).
    apply elem_of_enumerate_from in Hin as [_ Hin]. simpl in *.
    rewrite Nat.sub_0_r in Hin. eauto. }
  rewrite Forall_forall in H. apply (H _ Hk).
Qed.

(** The edge loop, row by row: every row with both ends in the node map
    appends the pair of their indices and the index its relation name has
    in the relation map returned; indices given once are kept. *)
Lemma edge_loop_translate (node_map : pydict Z nat) (records : list edge_record) :
  ∀ acc : list (nat * nat) * list nat * pydict string nat,
  ∃ acc' (new : list (nat * nat * nat)),
    edge_loop node_map records acc = Ok acc'
    ∧ acc'.1.1 = acc.1.1 ++ new.*1
    ∧ acc'.1.2 = acc.1.2 ++ new.*2
    ∧ Forall2 (λ r e,
          PyDict.get node_map (rec_source r) = Some e.1.1
          ∧ PyDict.get node_map (rec_target r) = Some e.1.2
          ∧ PyDict.get acc'.2 (str_or (rec_rel_type r) "RELATED_TO") = Some e.2)
        (filter (λ r, rec_source r ∈ node_map.*1 ∧ rec_target r ∈ node_map.*1)
           records) new
    ∧ (∀ k v, PyDict.get acc.2 k = Some v → PyDict.get acc'.2 k = Some v).
Proof.
  induction records as [|record records IH]; intros [[edge_list rel_types] rel_map].
  - exists (edge_list, rel_types, rel_map), []. simpl. rewrite !app_nil_r.
    split; [done|]. split; [done|]. split; [done|]. split; [constructor|done].
  - simpl. rewrite filter_cons.
    destruct (PyDict.contains node_map (rec_source record)) eqn:Es; simpl.
    2:{ apply contains_false in Es. rewrite decide_False by tauto. apply IH. }
    destruct (PyDict.contains node_map (rec_target record)) eqn:Et; simpl.
    2:{ apply contains_false in Et. rewrite decide_False by tauto. apply IH. }
    apply contains_true in Es as Hs, Et as Ht. rewrite decide_True by done.
    destruct (PyDict.get node_map (rec_source record)) as [s|] eqn:Hgs;
      [|by apply get_None_keys in Hgs].
    destruct (PyDict.get node_map (rec_target record)) as [t|] eqn:Hgt;
      [|by apply get_None_keys in Hgt].
    rewrite (subscript_get _ _ _ Hgs), (subscript_get _ _ _ Hgt). simpl.
    set (rel_type := str_or (rec_rel_type record) "RELATED_TO").
    set (rel_map' := if negb (PyDict.contains rel_map rel_type)
                     then PyDict.set rel_map rel_type (length rel_map)
                     else rel_map).
    assert (∃ r, PyDict.get rel_map' rel_type = Some r) as [r Hr].
    { unfold rel_map'. destruct (PyDict.contains rel_map rel_type) eqn:Ec; simpl.
      - apply contains_true in Ec.
        destruct (PyDict.get rel_map rel_type) eqn:Hg; [eauto|].
        by apply get_None_keys in Hg.
      - rewrite get_set, decide_True by done. eauto. }
    assert (∀ k v, PyDict.get rel_map k = Some v → PyDict.get rel_map' k = Some v)
      as Hmono.
    { intros k v Hk. unfold rel_map'.
      destruct (PyDict.contains rel_map rel_type) eqn:Ec; simpl; [done|].
      apply contains_false, get_None_keys in Ec.
      rewrite get_set, decide_False; [done|]. intros ->. congruence. }
    rewrite (subscript_get _ _ _ Hr). simpl.
    destruct (IH (edge_list ++ [(s, t)], rel_types ++ [r], rel_map'))
      as (acc' & new & -> & He & Ht' & Hall & Hkeep).
    simpl in *. exists acc', ((s, t, r) :: new). simpl.
    split; [done|]. rewrite He, Ht', <- !app_assoc. simpl.
    split; [done|]. split; [done|]. split.
    + constructor; [|done]. simpl. split; [done|]. split; [done|]. by apply Hkeep.
    + intros k v Hk. by apply Hkeep, Hmono.
Qed.

(** X18: the edges [get_graph_data] returns are the rows of the edge
    query whose two ends are node rows, in the order of the query, each
    translated faithfully: the edge joins the positions of node rows that
    carry the Neo4j ids of its two ends, and its type is the index that
    [rel_type_map] gives its relation name ([RELATED_TO] when the name is
    missing or empty). *)
Theorem edges_translated (nodes_result : list node_record)
    (edges_result : list edge_record) :
  nodes_result ≠ [] →
  ∃ node_map labels gd,
    get_graph_data nodes_result edges_result = Ok (node_map, labels, gd)
    ∧ Forall2 (λ r e,
          (∃ a, nodes_result !! e.1.1 = Some a ∧ rec_neo4j_id a = rec_source r)
          ∧ (∃ b, nodes_result !! e.1.2 = Some b ∧ rec_neo4j_id b = rec_target r)
          ∧ PyDict.get (rel_type_map gd) (str_or (rec_rel_type r) "RELATED_TO")
            = Some e.2)
        (filter (λ r, rec_source r ∈ map rec_neo4j_id nodes_result
                      ∧ rec_target r ∈ map rec_neo4j_id nodes_result)
           edges_result)
        (zip (zip (edges gd).1 (edges gd).2) (edge_types gd)).
Proof.
  intros Hne. unfold get_graph_data.
  pose proof (node_map_positions nodes_result) as Hpos.
  destruct (get_graph_data_nodes_spec nodes_result)
    as (node_map & ids & labels & Hnodes & Hids & _ & _ & Hkeys & _).
  rewrite Hnodes in *. simpl in Hpos.
  rewrite decide_False
    by (rewrite Hids; by intros ?%nil_length_inv).
  destruct (edge_loop_translate node_map edges_result ([], [], []))
    as (acc' & new & -> & He & Ht & Hall & _).
  simpl in *. eexists _, _, _. split; [done|]. simpl.
  rewrite He, Ht, !zip_fst_snd.
  rewrite (list_filter_iff _
             (λ r, rec_source r ∈ node_map.*1 ∧ rec_target r ∈ node_map.*1)).
  - eapply Forall2_impl; [exact Hall|]. simpl.
    intros r e (Hs & Ht' & Hr). eauto.
  - intros r. by rewrite !Hkeys.
Qed.

Lemma edges_translated_witness :
  duplicate_nodes ≠ []
  ∧ ∃ node_map labels gd,
      get_graph_data duplicate_nodes
        [ {| rec_source := 10; rec_target := 11; rec_rel_type := Some "LIKES" |};
          {| rec_source := 11; rec_target := 99; rec_rel_type := Some "IN" |};
          {| rec_source := 12; rec_target := 13; rec_rel_type := None |} ]
      = Ok (node_map, labels, gd)
    ∧ Forall2 (λ r e,
          (∃ a, duplicate_nodes !! e.1.1 = Some a ∧ rec_neo4j_id a = rec_source r)
          ∧ (∃ b, duplicate_nodes !! e.1.2 = Some b ∧ rec_neo4j_id b = rec_target r)
          ∧ PyDict.get (rel_type_map gd) (str_or (rec_rel_type r) "RELATED_TO")
            = Some e.2)
        (filter (λ r, rec_source r ∈ map rec_neo4j_id duplicate_nodes
                      ∧ rec_target r ∈ map rec_neo4j_id duplicate_nodes)
           [ {| rec_source := 10; rec_target := 11; rec_rel_type := Some "LIKES" |};
             {| rec_source := 11; rec_target := 99; rec_rel_type := Some "IN" |};
             {| rec_source := 12; rec_target := 13; rec_rel_type := None |} ])
        (zip (zip (edges gd).1 (edges gd).2) (edge_types gd)).
Proof.
  assert (duplicate_nodes ≠ []) as Hne by done.
  split; [exact Hne|].
  exact (edges_translated duplicate_nodes _ Hne).
Defined.

